(** * httploader: request scheduling, collection and statistics

    A shallow embedding of [httploader.py]: the [TestResult] record, the
    [StatisticsCalculator] report, the configuration check of
    [AdvancedLoadTester], the coroutine [single_request] as a short program
    of suspension points, the semaphore-gated interleaving of the request
    tasks, and the collection loop of [run_test].

    Conventions.
    - Python [int] is [Z]; Python [float] (seconds, rates) is read as an
      exact rational [Q]: the statements below are about which samples are
      selected and which quotient is formed, never about rounding.
    - [Optional[str]] is [option string]; truthiness of [r.error] is
      written out ([None] and the empty string are falsy).
    - A Python expression that may raise is a value of [Py]. *)

From Stdlib Require Import ZArith QArith List String Ascii Bool Lia Lqa.

From Stdlib Require Import Permutation.
Import ListNotations.

Local Open Scope string_scope.
Local Open Scope Z_scope.

(** ** Exceptions and raising computations *)

Module PyM.

(** A raised exception: its class name ([type(e).__name__]), its message,
    and its position in the class hierarchy as far as the [except]
    clauses of this program test it. *)
Record PyExc : Type := mkExc {
  exc_name : string;
  exc_msg : string;
  isa_TimeoutError : bool;   (* isinstance(e, asyncio.TimeoutError) *)
  isa_ClientError : bool;    (* isinstance(e, aiohttp.ClientError) *)
  isa_Exception : bool       (* isinstance(e, Exception) *)
}.

Definition ValueError (msg : string) : PyExc :=
  mkExc "ValueError" msg false false true.

Definition ZeroDivisionError : PyExc :=
  mkExc "ZeroDivisionError" "division by zero" false false true.

(** [asyncio.CancelledError] derives from [BaseException] only. *)
Definition CancelledError : PyExc :=
  mkExc "CancelledError" "" false false false.

(** The result of evaluating a Python expression: a value, or a raised
    exception. *)
Inductive Py (A : Type) : Type :=
| Ret (a : A)
| Raise (e : PyExc).
Arguments Ret {A} a.
Arguments Raise {A} e.

Definition bind {A B} (m : Py A) (k : A -> Py B) : Py B :=
  match m with
  | Ret a => k a
  | Raise e => Raise e
  end.

End PyM.
Import PyM.

Notation "x <- m ;; k" := (bind m (fun x => k))
  (at level 61, m at next level, right associativity).

(** [a / b] on numbers: [ZeroDivisionError] when the divisor is zero. *)
Definition truediv (a b : Q) : Py Q :=
  if Qeq_bool b 0 then Raise ZeroDivisionError else Ret (a / b)%Q.

(** [a > b] on floats. *)
Definition Qgtb (a b : Q) : bool := negb (Qle_bool a b).

(** [len(xs)] *)
Definition len {A} (l : list A) : Z := Z.of_nat (List.length l).

(** [range(n)] *)
Definition range (n : Z) : list Z := map Z.of_nat (seq 0 (Z.to_nat n)).

(** ** Data structures *)

(** [@dataclass TestResult] *)
Record TestResult : Type := mkTestResult {
  status_code : Z;
  response_time : Q;
  response_size_bytes : Z;
  error : option string
}.

(** [r.error is None] *)
Definition is_None {A} (o : option A) : bool :=
  match o with None => true | Some _ => false end.

(** Truth value of an [Optional[str]]: [None] and [""] are falsy. *)
Definition truthy_str (o : option string) : bool :=
  match o with
  | None => false
  | Some EmptyString => false
  | Some (String _ _) => true
  end.

(** ** StatisticsCalculator *)

Module StatisticsCalculator.

(** The condition of the [successes] comprehension:
    [200 <= r.status_code < 400 and r.error is None]. *)
Definition is_success (r : TestResult) : bool :=
  (200 <=? status_code r) && (status_code r <? 400) && is_None (error r).

(** The condition of the [failures] comprehension:
    [r.status_code >= 400 or r.error or r.status_code == -1]. *)
Definition is_failure (r : TestResult) : bool :=
  (status_code r >=? 400) || truthy_str (error r) || (status_code r =? -1).

Definition successes (results : list TestResult) : list TestResult :=
  filter is_success results.

Definition failures (results : list TestResult) : list TestResult :=
  filter is_failure results.

(** [_get_response_times]:
    [[r.response_time for r in self.results if r.error is None]]. *)
Definition _get_response_times (results : list TestResult) : list Q :=
  map response_time (filter (fun r => is_None (error r)) results).

(** [sum(r.response_size_bytes for r in self.results)] *)
Definition total_data (results : list TestResult) : Z :=
  fold_left Z.add (map response_size_bytes results) 0.

(** The latency section of the report: the millisecond sample handed to
    numpy's mean / percentile / min / max / std, and whether the
    histogram is drawn. *)
Record LatencySection : Type := mkLatency {
  latencies_ms : list Q;
  histogram : bool
}.

(** What [print_summary] displays, field by field. *)
Record Report : Type := mkReport {
  total_reqs : Z;
  n_successes : Z;
  n_failures : Z;
  success_rate : Q;
  failure_rate : Q;
  data_bytes : Z;
  actual_rps : Q;
  throughput_mbps : Q;
  latency : option LatencySection
}.

(** [(len(xs) / total_reqs * 100) if total_reqs > 0 else 0] *)
Definition rate_pct (n total : Z) : Py Q :=
  if total >? 0 then
    q <- truediv (inject_Z n) (inject_Z total) ;; Ret (q * 100)%Q
  else Ret 0%Q.

(** [total_reqs / self.duration if self.duration > 0 else 0] *)
Definition compute_rps (total : Z) (duration : Q) : Py Q :=
  if Qgtb duration 0 then truediv (inject_Z total) duration else Ret 0%Q.

(** [(total_data * 8) / (self.duration * 1_000_000) if self.duration > 0 else 0] *)
Definition compute_mbps (data : Z) (duration : Q) : Py Q :=
  if Qgtb duration 0
  then truediv (inject_Z (data * 8)) (duration * 1000000)%Q
  else Ret 0%Q.

(** The [if response_times:] block. *)
Definition latency_section (response_times : list Q) : option LatencySection :=
  match response_times with
  | [] => None
  | _ :: _ =>
      let ms := map (fun t => (t * 1000)%Q) response_times in
      Some (mkLatency ms (len ms >=? 10))
  end.

(** [print_summary]: [None] when it prints "No results to display." and
    returns, otherwise the report. *)
Definition print_summary (results : list TestResult) (duration : Q)
  : Py (option Report) :=
  match results with
  | [] => Ret None
  | _ :: _ =>
      let total := len results in
      let succ := successes results in
      let fail := failures results in
      sr <- rate_pct (len succ) total ;;
      fr <- rate_pct (len fail) total ;;
      let data := total_data results in
      let response_times := _get_response_times results in
      rps <- compute_rps total duration ;;
      mbps <- compute_mbps data duration ;;
      Ret (Some (mkReport total (len succ) (len fail) sr fr data rps mbps
                   (latency_section response_times)))
  end.

(** What [print_summary] shows for a non-empty result list: every
    division it performs has a non-zero divisor. *)
Definition shown (results : list TestResult) (duration : Q) : Report :=
  let total := len results in
  mkReport total (len (successes results)) (len (failures results))
    (inject_Z (len (successes results)) / inject_Z total * 100)%Q
    (inject_Z (len (failures results)) / inject_Z total * 100)%Q
    (total_data results)
    (if Qgtb duration 0 then inject_Z total / duration else 0)%Q
    (if Qgtb duration 0
     then inject_Z (total_data results * 8) / (duration * 1000000)
     else 0)%Q
    (latency_section (_get_response_times results)).

End StatisticsCalculator.

(** ** AdvancedLoadTester *)

Module AdvancedLoadTester.

(** The keyword arguments of the constructor that the engine reads.
    [headers] and [data] only shape the HTTP request that is sent; what
    comes back is the environment's choice (see [Transport]). *)
Record Config : Type := mkConfig {
  url : string;
  method : string;
  requests : Z;
  concurrent : Z;
  rate : Z
}.

(** [asyncio.Semaphore(value)]: the constructor rejects a negative
    initial value. *)
Definition Semaphore (value : Z) : Py Z :=
  if value <? 0
  then Raise (ValueError "Semaphore initial value must be >= 0")
  else Ret value.

(** [url.startswith(('http://', 'https://'))] *)
Definition has_scheme (u : string) : bool :=
  String.prefix "http://" u || String.prefix "https://" u.

(** [_validate_config] *)
Definition _validate_config (config : Config) : Py unit :=
  if requests config <=? 0 then
    Raise (ValueError "Number of requests must be greater than 0")
  else if concurrent config <=? 0 then
    Raise (ValueError "Concurrency must be greater than 0")
  else if rate config <=? 0 then
    Raise (ValueError "Rate limit must be greater than 0")
  else if negb (has_scheme (url config)) then
    Raise (ValueError "URL must start with http:// or https://")
  else Ret tt.

(** The attributes set by [__init__]. *)
Record Tester : Type := mkTester {
  config : Config;
  results : list TestResult;
  semaphore : Z
}.

(** [__init__]: the semaphore is built first, then the configuration is
    validated. *)
Definition __init__ (kwargs : Config) : Py Tester :=
  sem <- Semaphore (concurrent kwargs) ;;
  _ <- _validate_config kwargs ;;
  Ret (mkTester kwargs [] sem).

(** *** The request coroutine *)

(** What the network does to one call: an HTTP response with its status
    and body length, or an exception raised inside the [try] block. *)
Inductive Transport : Type :=
| Responded (status : Z) (content_length : nat)
| Failed (e : PyExc).

(** The [try] block of [single_request] with its three [except] clauses,
    tried in order; [elapsed] is [time.time() - start_time]. *)
Definition attempt (t : Transport) (elapsed : Q) : Py TestResult :=
  match t with
  | Responded status n =>
      Ret (mkTestResult status elapsed (Z.of_nat n) None)
  | Failed e =>
      if isa_TimeoutError e then
        Ret (mkTestResult (-1) elapsed 0 (Some "TimeoutError"))
      else if isa_ClientError e then
        Ret (mkTestResult (-1) elapsed 0
               (Some ("ClientError: " ++ exc_name e)))
      else if isa_Exception e then
        Ret (mkTestResult (-1) elapsed 0
               (Some ("UnexpectedError: " ++ exc_name e)))
      else Raise e
  end.

(** The steps of the coroutine, in program order. *)
Inductive Instr : Type :=
| Acquire              (* async with self.semaphore:   (__aenter__) *)
| Sleep (d : Z)        (*     await asyncio.sleep(request_delay)    *)
| StartTimer           (*     start_time = time.time()              *)
| Http                 (*     try: ... except ...: return TestResult *)
| Release.             (* leaving the async with       (__aexit__)  *)

(** Truth value of [request_delay] ([None] and [0] are falsy). *)
Definition truthy_num (d : option Z) : bool :=
  match d with
  | None => false
  | Some n => negb (n =? 0)
  end.

(** The body of [single_request] for a given [request_delay]. *)
Definition single_request (request_delay : option Z) : list Instr :=
  ([Acquire]
   ++ (match request_delay with
       | Some d => if truthy_num request_delay then [Sleep d] else []
       | None => []
       end)
   ++ [StartTimer; Http; Release])%list.

(** *** The rate schedule *)

(** [(i // self.config['rate']) if self.config['rate'] > 0 else 0] *)
Definition delay (config : Config) (i : Z) : Z :=
  if rate config >? 0 then i / rate config else 0.

(** *** Tasks under the semaphore *)

(** One task created by [asyncio.create_task(self.single_request(...))]:
    its argument [request_delay], what is left of its code, whether it is
    inside the [async with] (holds a permit), and what it returned or
    raised once it is over. *)
Record Task : Type := mkTask {
  request_delay : Z;
  pc : list Instr;
  holds : bool;
  result : option (Py TestResult)
}.

(** What the event loop and the network do to a task. *)
Inductive Event : Type :=
| EvAcquire                             (* the permit is granted *)
| EvSleep (d : Z)                       (* the sleep of [d] seconds is over *)
| EvTimer
| EvHttp (t : Transport) (elapsed : Q)  (* the call is settled *)
| EvRelease
| EvThrow (e : PyExc).                  (* an exception is thrown into a
                                           suspended task (cancellation) *)

(** An exception leaving the body of the [async with] skips to
    [__aexit__]. *)
Fixpoint unwind (code : list Instr) : list Instr :=
  match code with
  | [] => []
  | Release :: _ => code
  | _ :: rest => unwind rest
  end.

(** One move of a task, with the change of the semaphore's counter. *)
Definition task_step (t : Task) (ev : Event) : option (Task * Z) :=
  match pc t, ev with
  | Acquire :: rest, EvAcquire =>
      Some (mkTask (request_delay t) rest true (result t), -1)
  | Acquire :: _, EvThrow e =>
      Some (mkTask (request_delay t) [] false (Some (Raise e)), 0)
  | Sleep d :: rest, EvSleep d' =>
      if d =? d'
      then Some (mkTask (request_delay t) rest (holds t) (result t), 0)
      else None
  | Sleep _ :: rest, EvThrow e =>
      Some (mkTask (request_delay t) (unwind rest) (holds t)
              (Some (Raise e)), 0)
  | StartTimer :: rest, EvTimer =>
      Some (mkTask (request_delay t) rest (holds t) (result t), 0)
  | Http :: rest, EvHttp tr elapsed =>
      Some (mkTask (request_delay t) (unwind rest) (holds t)
              (Some (attempt tr elapsed)), 0)
  | Release :: rest, EvRelease =>
      Some (mkTask (request_delay t) rest false (result t), 1)
  | _, _ => None
  end.

(** The semaphore's counter and the tasks of one run. *)
Record System : Type := mkSystem {
  value : Z;
  tasks : list Task
}.

Fixpoint set_nth {A} (i : nat) (x : A) (l : list A) : list A :=
  match l, i with
  | [], _ => []
  | _ :: l', O => x :: l'
  | y :: l', S i' => y :: set_nth i' x l'
  end.

(** Task [i] makes the move [ev].  A permit is granted only while the
    counter is positive. *)
Definition sys_step (s : System) (iev : nat * Event) : option System :=
  let (i, ev) := iev in
  match nth_error (tasks s) i with
  | None => None
  | Some t =>
      match task_step t ev with
      | None => None
      | Some (t', dv) =>
          if (match ev with EvAcquire => value s >? 0 | _ => true end)
          then Some (mkSystem (value s + dv) (set_nth i t' (tasks s)))
          else None
      end
  end.

(** A schedule: any interleaving of moves. *)
Fixpoint exec (s : System) (tr : list (nat * Event)) : option System :=
  match tr with
  | [] => Some s
  | iev :: tr' =>
      match sys_step s iev with
      | None => None
      | Some s' => exec s' tr'
      end
  end.

(** The tasks built by the [for i in range(self.config['requests'])]
    loop of [run_test], and the semaphore of [__init__]. *)
Definition create_tasks (config : Config) : list Task :=
  map (fun i =>
         mkTask (delay config i) (single_request (Some (delay config i)))
           false None)
      (range (requests config)).

Definition initial (t : Tester) : System :=
  mkSystem (semaphore t) (create_tasks (config t)).

(** Number of tasks inside the [async with]. *)
Definition holders (s : System) : Z :=
  len (filter holds (tasks s)).

Definition finished (t : Task) : bool :=
  match pc t with [] => true | _ :: _ => false end.

(** *** The collection loop *)

(** What [await completed_task] evaluates to: the value or exception of
    a finished task. *)
Inductive PyValue : Type :=
| VTestResult (r : TestResult)
| VOther.

(** The fallback built in the [except Exception as e] clause. *)
Definition error_result (e : PyExc) : TestResult :=
  mkTestResult (-1) 0 0 (Some ("TaskError: " ++ exc_name e)).

(** One iteration of [for completed_task in completed_tasks]: the new
    [self.results], and the exception that leaves the loop if any. *)
Definition collect_one (results : list TestResult) (o : Py PyValue)
  : list TestResult * option PyExc :=
  match o with
  | Ret (VTestResult r) => ((results ++ [r])%list, None)
  | Ret VOther => (results, None)
  | Raise e =>
      if isa_Exception e
      then ((results ++ [error_result e])%list, None)
      else (results, Some e)
  end.

Fixpoint collect (results : list TestResult) (completed : list (Py PyValue))
  : list TestResult * option PyExc :=
  match completed with
  | [] => (results, None)
  | o :: rest =>
      match collect_one results o with
      | (results', None) => collect results' rest
      | (results', Some e) => (results', Some e)
      end
  end.

(** What [await completed_task] gives for task [t]; only finished tasks
    are yielded by [asyncio.as_completed]. *)
Definition awaited (t : Task) : option (Py PyValue) :=
  match result t with
  | Some (Ret r) => Some (Ret (VTestResult r))
  | Some (Raise e) => Some (Raise e)
  | None => None
  end.

Fixpoint as_completed (ts : list Task) (order : list nat)
  : option (list (Py PyValue)) :=
  match order with
  | [] => Some []
  | i :: order' =>
      match nth_error ts i with
      | None => None
      | Some t =>
          match awaited t, as_completed ts order' with
          | Some o, Some os => Some (o :: os)
          | _, _ => None
          end
      end
  end.

(** The gathering part of [run_test]: [self.results = []], then the loop
    over [asyncio.as_completed(tasks)], which yields the tasks in the
    order [order] in which they finished.  The calls to the progress bar
    are taken not to raise, so the outer [except Exception] of [run_test],
    which starts the collection over after such a failure, is never
    entered. *)
Definition gather (final : System) (order : list nat)
  : option (list TestResult * option PyExc) :=
  match as_completed (tasks final) order with
  | None => None
  | Some completed => Some (collect [] completed)
  end.

(** *** Time *)

(** One run of the coroutine on the clock: [dts] gives, step by step,
    how long the task stays at that step.  A step never takes negative
    time, and [asyncio.sleep(d)] suspends for at least [d] seconds. *)
Definition admissible (ins : Instr) (dt : Q) : bool :=
  Qle_bool 0 dt
  && match ins with
     | Sleep d => Qle_bool (inject_Z d) dt
     | _ => true
     end.

Fixpoint timing_ok (code : list Instr) (dts : list Q) : bool :=
  match code, dts with
  | [], [] => true
  | ins :: code', dt :: dts' => admissible ins dt && timing_ok code' dts'
  | _, _ => false
  end.

(** The instant at which the task enters the [try] block and issues its
    HTTP call, for a task that starts running at [now]. *)
Fixpoint http_time (now : Q) (code : list Instr) (dts : list Q) : option Q :=
  match code, dts with
  | Http :: _, _ => Some now
  | _ :: code', dt :: dts' => http_time (now + dt)%Q code' dts'
  | _, _ => None
  end.

(** *** Reading a run *)

(** [main]: the tester is constructed from the configuration, then
    [await tester.run_test()] creates the tasks. *)
Definition start (kwargs : Config) : Py System :=
  tester <- __init__ kwargs ;;
  Ret (initial tester).

(** The configurations that the constructor is to reject. *)
Definition invalid (c : Config) : Prop :=
  requests c <= 0 \/ concurrent c <= 0 \/ rate c <= 0
  \/ ~ (exists rest, url c = ("http://" ++ rest)%string
                     \/ url c = ("https://" ++ rest)%string).

(** What a request task can end with: the value or exception of its
    [try] block, or an exception thrown into it while it was suspended. *)
Definition task_outcome (o : Py TestResult) : Prop :=
  (exists tr elapsed, o = attempt tr elapsed) \/ (exists e, o = Raise e).

(** The states a request task goes through. *)
Inductive task_shape : Task -> Prop :=
| shape_new d :
    task_shape (mkTask d (single_request (Some d)) false None)
| shape_sleep d :
    d <> 0 ->
    task_shape (mkTask d [Sleep d; StartTimer; Http; Release] true None)
| shape_timer d :
    task_shape (mkTask d [StartTimer; Http; Release] true None)
| shape_http d :
    task_shape (mkTask d [Http; Release] true None)
| shape_exit d o :
    task_outcome o ->
    task_shape (mkTask d [Release] true (Some o))
| shape_over d o :
    task_outcome o ->
    task_shape (mkTask d [] false (Some o)).

(** A task's own moves, with the total change of the counter. *)
Fixpoint task_run (t : Task) (evs : list Event) : option (Task * Z) :=
  match evs with
  | [] => Some (t, 0)
  | ev :: evs' =>
      match task_step t ev with
      | None => None
      | Some (t', dv) =>
          match task_run t' evs' with
          | None => None
          | Some (t'', dv') => Some (t'', dv + dv')
          end
      end
  end.

(** The moves that take a task from where it is to its end, when the
    network settles its call as [tr] after [elapsed] seconds. *)
Definition drain (tr : Transport) (elapsed : Q) (code : list Instr)
  : list Event :=
  map (fun ins =>
         match ins with
         | Acquire => EvAcquire
         | Sleep d => EvSleep d
         | StartTimer => EvTimer
         | Http => EvHttp tr elapsed
         | Release => EvRelease
         end) code.

(** What holds of the semaphore and the tasks all along a run with
    [C] permits. *)
Definition sys_inv (C : Z) (s : System) : Prop :=
  Forall task_shape (tasks s) /\ 0 <= value s /\ value s + holders s = C.


(** What [await] gives, against the entry that the loop appends. *)
Definition yields (o : Py PyValue) (r : TestResult) : Prop :=
  o = Ret (VTestResult r)
  \/ exists e, o = Raise e /\ isa_Exception e = true /\ r = error_result e.

(** The error strings written by [single_request] and by the collection
    loop. *)
Definition code_tag (tag : string) : Prop :=
  tag = "TimeoutError"
  \/ (exists cls, tag = "ClientError: " ++ cls)
  \/ (exists cls, tag = "UnexpectedError: " ++ cls)
  \/ (exists cls, tag = "TaskError: " ++ cls).

End AdvancedLoadTester.

(** ** A small run, used to exercise the statements below *)

Module Demo.
Import AdvancedLoadTester.

(** Three requests, two permits, two requests per second: the third
    request is delayed by one second. *)
Definition cfg : Config :=
  mkConfig "http://localhost:8080/api" "GET" 3 2 2.

Definition tester : Tester := mkTester cfg [] 2.

Definition ServerTimeoutError : PyExc :=
  mkExc "ServerTimeoutError" "" true true true.

Definition ClientConnectorError : PyExc :=
  mkExc "ClientConnectorError" "" false true true.

Definition RuntimeError : PyExc :=
  mkExc "RuntimeError" "" false false true.

(** Requests 0 and 2 hold the two permits, request 2 is asleep inside
    the [async with], request 1 waits. *)
Definition busy_schedule : list (nat * Event) :=
  [(0%nat, EvAcquire); (2%nat, EvAcquire); (0%nat, EvTimer)].

Definition busy : System :=
  Eval vm_compute in
    match exec (initial tester) busy_schedule with
    | Some s => s
    | None => initial tester
    end.

(** A whole run in which every request fails: request 0 times out,
    request 2 has an exception thrown into its sleep, request 1 cannot
    connect.  Completion order: 0, 2, 1. *)
Definition failing_schedule : list (nat * Event) :=
  [(0%nat, EvAcquire); (2%nat, EvAcquire); (0%nat, EvTimer);
   (0%nat, EvHttp (Failed ServerTimeoutError) 30%Q); (0%nat, EvRelease);
   (1%nat, EvAcquire); (2%nat, EvThrow RuntimeError); (2%nat, EvRelease);
   (1%nat, EvTimer);
   (1%nat, EvHttp (Failed ClientConnectorError) (1 # 100)%Q);
   (1%nat, EvRelease)].

Definition failed : System :=
  Eval vm_compute in
    match exec (initial tester) failing_schedule with
    | Some s => s
    | None => initial tester
    end.



End Demo.

(** * The rest of the program *)

From Stdlib Require Import DecimalString Sorted.

(** ** Dictionaries *)

Module PyDict.

Section Dict.
Context {K V : Type} (eqb : K -> K -> bool).

(** A [dict] as the list of its items in insertion order. *)
Definition dict : Type := list (K * V).

(** [d.get(k)] *)
Fixpoint get (d : dict) (k : K) : option V :=
  match d with
  | [] => None
  | (k', v) :: d' => if eqb k k' then Some v else get d' k
  end.

(** [d.get(k, default)] *)
Definition get_default (d : dict) (k : K) (default : V) : V :=
  match get d k with
  | Some v => v
  | None => default
  end.

(** [d[k] = v]: a key already present keeps its place. *)
Fixpoint set (d : dict) (k : K) (v : V) : dict :=
  match d with
  | [] => [(k, v)]
  | (k', v') :: d' =>
      if eqb k k' then (k', v) :: d' else (k', v') :: set d' k v
  end.

Definition keys (d : dict) : list K := map fst d.

End Dict.

(** The counting idiom [d[k] = d.get(k, 0) + 1], over a sequence of
    keys. *)
Definition count_key {K} (eqb : K -> K -> bool) (d : dict) (k : K)
  : dict (K := K) (V := Z) :=
  set eqb d k (get_default eqb d k 0 + 1).

Definition tally {K} (eqb : K -> K -> bool) (ks : list K) (d : dict)
  : dict (K := K) (V := Z) :=
  fold_left (count_key eqb) ks d.

(** [sum(d.values())] *)
Definition total {K} (d : dict (K := K) (V := Z)) : Z :=
  fold_right Z.add 0 (map snd d).

Section Sorting.
Context {A : Type} (leb : A -> A -> bool).

Fixpoint insert_sorted (x : A) (l : list A) : list A :=
  match l with
  | [] => [x]
  | y :: l' => if leb x y then x :: l else y :: insert_sorted x l'
  end.

(** [sorted(l)] for the order [leb]: on the item lists of a dictionary,
    whose keys are pairwise distinct, the order is strict and the sorted
    list is the same whatever the algorithm. *)
Fixpoint sorted (l : list A) : list A :=
  match l with
  | [] => []
  | x :: l' => insert_sorted x (sorted l')
  end.

End Sorting.

(** The order of Python on pairs [(key, count)], for integer keys and for
    string keys. *)
Definition item_leb_int (a b : Z * Z) : bool :=
  (fst a <? fst b) || ((fst a =? fst b) && (snd a <=? snd b)).

Definition item_leb_str (a b : string * Z) : bool :=
  String.ltb (fst a) (fst b)
  || (String.eqb (fst a) (fst b) && (snd a <=? snd b)).

End PyDict.

(** ** The breakdowns and the histogram of the report *)

Module Breakdowns.
Import PyDict.

(** One turn of the loop of [_print_breakdowns] over [self.results]. *)
Definition count_result (acc : dict (K := Z) (V := Z) * dict (K := string) (V := Z))
           (r : TestResult) : dict * dict :=
  let status_codes := fst acc in
  let errors := snd acc in
  (set Z.eqb status_codes (status_code r)
     (get_default Z.eqb status_codes (status_code r) 0 + 1),
   match error r with
   | Some e =>
       if truthy_str (error r)
       then set String.eqb errors e (get_default String.eqb errors e 0 + 1)
       else errors
   | None => errors
   end).

Definition count_results (results : list TestResult) : dict * dict :=
  fold_left count_result results ([], []).

(** The error strings that the loop counts: those that are not empty. *)
Definition error_keys (results : list TestResult) : list string :=
  flat_map (fun r => match error r with
                     | Some e => if truthy_str (error r) then [e] else []
                     | None => []
                     end) results.

Inductive Color : Type := RED | GREEN | YELLOW.

(** The colour and the text printed for a status code. *)
Definition status_label (code : Z) : Color * string :=
  if code =? -1 then (RED, "Network Error")
  else if (200 <=? code) && (code <? 300)
       then (GREEN, NilZero.string_of_int (Z.to_int code))
  else if (300 <=? code) && (code <? 400)
       then (YELLOW, NilZero.string_of_int (Z.to_int code))
  else (RED, NilZero.string_of_int (Z.to_int code)).

(** The lines of "Status Code Breakdown": label and count, by ascending
    code. *)
Definition status_rows (results : list TestResult) : list (Z * Z) :=
  sorted item_leb_int (fst (count_results results)).

(** The lines of "Error Type Breakdown", by ascending error string; the
    section is printed only [if errors:]. *)
Definition error_rows (results : list TestResult) : option (list (string * Z)) :=
  match snd (count_results results) with
  | [] => None
  | errors => Some (sorted item_leb_str errors)
  end.

(** [_print_breakdowns] *)
Definition _print_breakdowns (results : list TestResult)
  : list (Color * string * Z) * option (list (string * Z)) :=
  (map (fun item => (status_label (fst item), snd item)) (status_rows results),
   error_rows results).

(** [int(x)] on a float: truncation towards zero. *)
Definition int_of_float (x : Q) : Z := Z.quot (Qnum x) (Z.pos (Qden x)).

(** [int((hist[i] / max_count) * 40) if max_count > 0 else 0] *)
Definition bar_width (count max_count : Z) : Z :=
  if max_count >? 0
  then int_of_float (inject_Z count / inject_Z max_count * 40)%Q
  else 0.

(** [hist.max()] of a non-empty array. *)
Definition hist_max (hist : list Z) : Z :=
  fold_left Z.max (tl hist) (hd 0 hist).

(** [bins=min(10, len(latencies_ms))] *)
Definition histogram_bins (latencies : list Q) : Z :=
  Z.min 10 (len latencies).

(** The bars of [_print_histogram] for the counts [hist] that
    [np.histogram] returns: width of the bar and count, bin by bin. *)
Definition histogram_bars (hist : list Z) : list (Z * Z) :=
  let max_count := hist_max hist in
  map (fun count => (bar_width count max_count, count)) hist.

End Breakdowns.

(** ** The whole gathering of [run_test], progress bar included *)

Module Gathering.
Import AdvancedLoadTester.

(** What the progress bar does when it is called: [tqdm(...)], the
    [k]-th [progress_bar.update(1)] (from 0) and [progress_bar.close()]
    each return, or raise the given exception. *)
Record ProgressBar : Type := mkBar {
  bar_create : option PyExc;
  bar_update : nat -> option PyExc;
  bar_close : option PyExc
}.

(** A progress bar that never raises. *)
Definition quiet : ProgressBar := mkBar None (fun _ => None) None.

(** [task.cancelled()]: the task ended with [asyncio.CancelledError],
    which is no [Exception]. *)
Definition cancelled (t : Task) : bool :=
  match result t with
  | Some (Raise e) =>
      negb (isa_Exception e) && String.eqb (exc_name e) "CancelledError"
  | _ => false
  end.

(** The entry built in the [except Exception] clause of the second
    collection. *)
Definition collection_error : TestResult :=
  mkTestResult (-1) 0 0 (Some "TaskCollectionError").

(** The loop [for task in tasks] of the outer [except Exception] clause,
    over the tasks in the order of their creation: the new
    [self.results], and the exception that leaves the loop if any. *)
Fixpoint recollect (results : list TestResult) (ts : list Task)
  : list TestResult * option PyExc :=
  match ts with
  | [] => (results, None)
  | t :: ts' =>
      if finished t && negb (cancelled t) then
        match awaited t with
        | Some (Ret (VTestResult r)) => recollect (results ++ [r])%list ts'
        | Some (Ret VOther) => recollect results ts'
        | Some (Raise e) =>
            if isa_Exception e
            then recollect (results ++ [collection_error])%list ts'
            else (results, Some e)
        | None => recollect results ts'
        end
      else recollect results ts'
  end.

(** The loop [for completed_task in completed_tasks] with its [finally]
    clause: after each awaited task the bar is updated, and an exception
    raised by the update replaces the one that was leaving the loop. *)
Fixpoint gather_loop (update : nat -> option PyExc) (k : nat)
         (ts : list Task) (results : list TestResult) (order : list nat)
  : option (list TestResult * option PyExc) :=
  match order with
  | [] => Some (results, None)
  | i :: order' =>
      match nth_error ts i with
      | None => None
      | Some t =>
          match awaited t with
          | None => None
          | Some o =>
              let (results', raised) := collect_one results o in
              match update k with
              | Some e => Some (results', Some e)
              | None =>
                  match raised with
                  | Some e => Some (results', Some e)
                  | None => gather_loop update (S k) ts results' order'
                  end
              end
          end
      end
  end.

(** The inner [try] block of [run_test]: the bar is created,
    [self.results] is emptied, the loop runs, the bar is closed. *)
Definition gather_try (bar : ProgressBar) (t : Tester) (s : System)
           (order : list nat)
  : option (list TestResult * option PyExc) :=
  match bar_create bar with
  | Some e => Some (results t, Some e)
  | None =>
      match gather_loop (bar_update bar) 0 (tasks s) [] order with
      | Some (rs, None) =>
          match bar_close bar with
          | Some e => Some (rs, Some e)
          | None => Some (rs, None)
          end
      | other => other
      end
  end.

(** The gathering of [run_test] with its [except Exception] clause: an
    [Exception] that leaves the inner block starts the collection over,
    from the tasks that are done and not cancelled.  [s] is the state of
    the tasks when the gathering ends (a task that is over does not change
    any more); the result is [None] when [order] names a task that is not
    over, which [asyncio.as_completed] cannot yield. *)
Definition run_test_gather (bar : ProgressBar) (t : Tester) (s : System)
           (order : list nat)
  : option (list TestResult * option PyExc) :=
  match gather_try bar t s order with
  | Some (rs, Some e) =>
      if isa_Exception e then Some (recollect [] (tasks s))
      else Some (rs, Some e)
  | other => other
  end.



End Gathering.

(** ** Command line and prompts *)

Module CommandLine.
Import PyDict.

(** [h.split(':', 1)] when [':' in h]: the text before the first colon
    and the text after it; [None] when [h] has no colon. *)
Fixpoint split_colon (h : string) : option (string * string) :=
  match h with
  | EmptyString => None
  | String c h' =>
      if Ascii.eqb c ":" then Some (EmptyString, h')
      else match split_colon h' with
           | Some (key, value) => Some (String c key, value)
           | None => None
           end
  end.

Definition default_user_agent : string :=
  "Mozilla/5.0 (Windows NT 10.0; Win64; x64) AppleWebKit/537.36 (KHTML, like Gecko) Chrome/120.0.0.0 Safari/537.36".

(** [config['headers']] before the [-H] options are read. *)
Definition default_headers : dict (K := string) (V := string) :=
  [("User-Agent", default_user_agent)].

Section Headers.

(** [str.strip()], left open: the statements hold whatever it removes. *)
Variable strip : string -> string.

(** The body of [for h in args.header]. *)
Definition add_header (headers : dict) (h : string)
  : dict (K := string) (V := string) :=
  match split_colon h with
  | Some (key, value) => set String.eqb headers (strip key) (strip value)
  | None => headers
  end.

(** The headers of the command-line mode of [main]; [header] is
    [args.header], [None] when no [-H] option is given. *)
Definition process_headers (header : option (list string))
  : dict (K := string) (V := string) :=
  match header with
  | None => default_headers
  | Some hs => fold_left add_header hs default_headers
  end.

(** The pairs that the options contribute, in the order of the options. *)
Definition parsed_headers (hs : list string) : list (string * string) :=
  flat_map (fun h => match split_colon h with
                     | Some (key, value) => [(strip key, strip value)]
                     | None => []
                     end) hs.

End Headers.

(** [str.lower()] on ASCII letters; other characters are left as they
    are. *)
Definition lower_ascii (c : ascii) : ascii :=
  let n := nat_of_ascii c in
  if (65 <=? n)%nat && (n <=? 90)%nat then ascii_of_nat (n + 32) else c.

Fixpoint lower (s : string) : string :=
  match s with
  | EmptyString => EmptyString
  | String c s' => String (lower_ascii c) (lower s')
  end.

(** [x in s] on strings. *)
Fixpoint contains (x s : string) : bool :=
  String.prefix x s
  || match s with
     | EmptyString => false
     | String _ s' => contains x s'
     end.

(** The test of the URL prompt of [get_interactive_input]:
    [url.lower().startswith(('http://', 'https://'))]. *)
Definition url_prompt_accepts (url : string) : bool :=
  AdvancedLoadTester.has_scheme (lower url).

(** The markers of the safety check for non-local URLs. *)
Definition local_markers : list string :=
  ["localhost"; "127.0.0.1"; "192.168."; "10."; "172.16."; "172.17.";
   "172.18."; "172.19."; "172.20."; "172.21."; "172.22."; "172.23.";
   "172.24."; "172.25."; "172.26."; "172.27."; "172.28."; "172.29.";
   "172.30."; "172.31."].

(** [any(x in config['url'].lower() for x in [...])]: when it holds, no
    warning is shown and no confirmation is asked. *)
Definition looks_local (url : string) : bool :=
  existsb (fun x => contains x (lower url)) local_markers.

End CommandLine.

(** ** The moves of one request in a schedule *)

Module History.
Import AdvancedLoadTester.

(** The moves of task [i] in a schedule, in the order they were made. *)
Definition events_of (i : nat) (tr : list (nat * Event)) : list Event :=
  map snd (filter (fun x => Nat.eqb (fst x) i) tr).

(** The moves of a request with delay [d] when it reaches its timer, and
    when it reaches its HTTP call. *)
Definition before_timer (d : Z) : list Event :=
  EvAcquire :: (if d =? 0 then [] else [EvSleep d]).

Definition before_http (d : Z) : list Event :=
  (before_timer d ++ [EvTimer])%list.

(** What the past moves [evs] of a task are, by the point of its code it
    has reached, and where its outcome comes from. *)
Definition history_ok (t : Task) (evs : list Event) : Prop :=
  match pc t with
  | Acquire :: _ => evs = []
  | Sleep _ :: _ => evs = [EvAcquire]
  | StartTimer :: _ => evs = before_timer (request_delay t)
  | Http :: _ => evs = before_http (request_delay t)
  | _ => True
  end
  /\ match result t with
     | None => True
     | Some o =>
         (exists tr elapsed, In (EvHttp tr elapsed) evs /\ o = attempt tr elapsed)
         \/ (exists e, In (EvThrow e) evs /\ o = Raise e)
     end.

End History.

(** * Properties *)

(** ** Auxiliary facts *)

Lemma Qgtb_true a b : Qgtb a b = true <-> (b < a)%Q.
Proof.
  unfold Qgtb. rewrite negb_true_iff. split; intro H.
  - apply Qnot_le_lt. intro L. apply Qle_bool_iff in L. congruence.
  - destruct (Qle_bool a b) eqn:E; [|reflexivity].
    apply Qle_bool_iff in E. exfalso. apply (Qlt_not_le _ _ H E).
Qed.

Lemma Qgtb_false a b : Qgtb a b = false <-> (a <= b)%Q.
Proof.
  unfold Qgtb. rewrite negb_false_iff. apply Qle_bool_iff.
Qed.

Lemma is_None_true {A} (o : option A) : is_None o = true <-> o = None.
Proof. destruct o; simpl; split; congruence. Qed.

Lemma truthy_str_true o :
  truthy_str o = true <-> exists s, o = Some s /\ s <> EmptyString.
Proof.
  destruct o as [[|c s]|]; simpl; split; try congruence.
  - intros (s & E & N). inversion E; subst. congruence.
  - intros _. exists (String c s). split; congruence.
  - intros (s & E & _). congruence.
Qed.

Lemma truediv_nonzero a b : ~ (b == 0)%Q -> truediv a b = Ret (a / b)%Q.
Proof.
  intro H. unfold truediv. destruct (Qeq_bool b 0) eqn:E; [|reflexivity].
  apply Qeq_bool_iff in E. contradiction.
Qed.

Lemma len_cons {A} (x : A) l : len (x :: l) = len l + 1.
Proof. unfold len. simpl List.length. lia. Qed.

Lemma len_nonneg {A} (l : list A) : 0 <= len l.
Proof. unfold len. lia. Qed.

Lemma len_app {A} (l1 l2 : list A) : len (l1 ++ l2) = len l1 + len l2.
Proof. unfold len. rewrite length_app. lia. Qed.

(** ** The statistics report *)

Module StatisticsFacts.
Import StatisticsCalculator.

Lemma is_success_spec r :
  is_success r = true <->
  200 <= status_code r < 400 /\ error r = None.
Proof.
  unfold is_success.
  rewrite !andb_true_iff, is_None_true, Z.leb_le, Z.ltb_lt. tauto.
Qed.

Lemma is_failure_spec r :
  is_failure r = true <->
  status_code r >= 400
  \/ (exists s, error r = Some s /\ s <> EmptyString)
  \/ status_code r = -1.
Proof.
  unfold is_failure. rewrite !orb_true_iff, truthy_str_true.
  rewrite Z.geb_le, Z.eqb_eq.
  split; (intros [[H|H]|H]; [left; lia|right; left; exact H|right; right; exact H])
    || (intros [H|[H|H]]; [left; left; lia|left; right; exact H|right; exact H]).
Qed.

Lemma success_not_failure r : is_success r = true -> is_failure r = false.
Proof.
  intro S. apply is_success_spec in S. destruct S as [R E].
  destruct (is_failure r) eqn:F; [|reflexivity].
  apply is_failure_spec in F.
  destruct F as [F|[(s & F & _)|F]]; [lia|congruence|lia].
Qed.

Lemma inject_Z_nonzero z : z <> 0 -> ~ (inject_Z z == 0)%Q.
Proof.
  intros N E. apply N. unfold Qeq in E. simpl in E. lia.
Qed.

Lemma rate_pct_pos n total :
  0 < total -> rate_pct n total = Ret (inject_Z n / inject_Z total * 100)%Q.
Proof.
  intro P. unfold rate_pct.
  destruct (total >? 0) eqn:E; [|lia].
  rewrite truediv_nonzero by (apply inject_Z_nonzero; lia). reflexivity.
Qed.

Lemma compute_rps_total total d :
  compute_rps total d = Ret (if Qgtb d 0 then inject_Z total / d else 0)%Q.
Proof.
  unfold compute_rps. destruct (Qgtb d 0) eqn:E; [|reflexivity].
  apply Qgtb_true in E. apply truediv_nonzero. intro Z0. rewrite Z0 in E.
  apply (Qlt_irrefl 0), E.
Qed.

Lemma compute_mbps_total data d :
  compute_mbps data d =
  Ret (if Qgtb d 0 then inject_Z (data * 8) / (d * 1000000) else 0)%Q.
Proof.
  unfold compute_mbps. destruct (Qgtb d 0) eqn:E; [|reflexivity].
  apply Qgtb_true in E. apply truediv_nonzero. intro Z0.
  assert (0 < d * 1000000)%Q as P by lra.
  rewrite Z0 in P. apply (Qlt_irrefl 0), P.
Qed.

Lemma print_summary_cons r rs d :
  print_summary (r :: rs) d = Ret (Some (shown (r :: rs) d)).
Proof.
  unfold print_summary.
  assert (0 < len (r :: rs)) as P by (rewrite len_cons; pose proof (len_nonneg rs); lia).
  rewrite !rate_pct_pos by exact P. simpl bind.
  rewrite compute_rps_total, compute_mbps_total. reflexivity.
Qed.

Lemma latency_section_None ts : latency_section ts = None <-> ts = [].
Proof. destruct ts; simpl; split; congruence. Qed.

Lemma error_free_nil rs :
  filter (fun x => is_None (error x)) rs = [] <->
  (forall x, In x rs -> error x <> None).
Proof.
  induction rs as [|a rs IH]; simpl.
  - split; [intros _ x []|reflexivity].
  - destruct (is_None (error a)) eqn:E.
    + split; [discriminate|]. intro H. exfalso.
      apply (H a); [now left|]. now apply is_None_true.
    + rewrite IH. split.
      * intros H x [<-|I]; [|now apply H].
        intro N. apply is_None_true in N. congruence.
      * intros H x I. apply H. now right.
Qed.

Lemma counts_le rs : len (successes rs) + len (failures rs) <= len rs.
Proof.
  unfold successes, failures.
  induction rs as [|a rs IH]; simpl; [reflexivity|].
  pose proof (success_not_failure a) as D.
  destruct (is_success a), (is_failure a);
    rewrite ?len_cons;
    first [specialize (D eq_refl); discriminate D | lia].
Qed.

Lemma counts_lt r rs :
  In r rs -> is_success r = false -> is_failure r = false ->
  len (successes rs) + len (failures rs) < len rs.
Proof.
  unfold successes, failures.
  induction rs as [|a rs IH]; simpl; [intros []|].
  intros [->|I] S F.
  - rewrite S, F, len_cons. pose proof (counts_le rs) as L.
    unfold successes, failures in L. lia.
  - specialize (IH I S F). pose proof (success_not_failure a) as D.
    destruct (is_success a), (is_failure a);
      rewrite ?len_cons;
      first [specialize (D eq_refl); discriminate D | lia].
Qed.

(** C2, as stated, fails: an outcome with status 500 and no error tag is
    not a success, yet its response time is the latency sample. *)
Lemma latency_sample_not_only_successes :
  ~ (forall rs d rep,
        print_summary rs d = Ret (Some rep) ->
        latency rep = latency_section (map response_time (successes rs))).
Proof.
  intro H.
  specialize (H [mkTestResult 500 (1 # 4) 10 None] 1%Q _
                (print_summary_cons _ _ _)).
  vm_compute in H. discriminate H.
Qed.

(** C2 (amended): the latency statistics are computed over the response
    times, in milliseconds, of every outcome whose error tag is [None],
    whatever its status code; the latency section is omitted exactly when
    no outcome is free of an error tag.  All successes are in the sample,
    and the sample is exactly the successes' when every outcome without
    an error tag has a status in [200, 400). *)
Theorem latency_over_error_free_outcomes r rs d :
  let results := r :: rs in
  let error_free := filter (fun x => is_None (error x)) results in
  exists rep,
    print_summary results d = Ret (Some rep)
    /\ latency rep = latency_section (map response_time error_free)
    /\ (latency rep = None <-> forall x, In x results -> error x <> None)
    /\ (forall sec, latency rep = Some sec ->
          latencies_ms sec
          = map (fun x => (response_time x * 1000)%Q) error_free)
    /\ (forall x, In x (successes results) -> In x error_free)
    /\ ((forall x, In x results -> error x = None ->
                   200 <= status_code x < 400) ->
        latency rep = latency_section (map response_time (successes results))).
Proof.
  intros results error_free. exists (shown results d).
  split; [apply print_summary_cons|].
  split; [reflexivity|].
  split.
  { simpl latency. rewrite latency_section_None. unfold _get_response_times.
    fold error_free. rewrite <- error_free_nil. fold error_free.
    destruct error_free; simpl; split; congruence. }
  split.
  { intros sec. simpl latency. unfold _get_response_times. fold error_free.
    destruct error_free as [|e es] eqn:E; simpl; [discriminate|].
    intro H. inversion H; subst. simpl. rewrite map_map. reflexivity. }
  split.
  { intros x I. unfold successes in I. apply filter_In in I.
    destruct I as [I S]. apply filter_In. split; [exact I|].
    apply is_success_spec in S. apply is_None_true. tauto. }
  intro H. simpl latency. unfold _get_response_times, successes.
  f_equal. f_equal. apply filter_ext_in. intros x I.
  unfold is_success. destruct (is_None (error x)) eqn:E.
  - apply is_None_true in E. specialize (H x I E).
    rewrite andb_true_r. symmetry. apply andb_true_iff.
    rewrite Z.leb_le, Z.ltb_lt. lia.
  - now rewrite andb_false_r.
Qed.

(** Outside a run, a hand-built result with an empty error string is
    neither a success ([error=""] is not [None]) nor, with a 2xx status, a
    failure (the empty string is falsy); no path of the program writes
    such a tag. *)
Lemma empty_tag_is_present_but_no_failure :
  ~ (forall r,
        is_failure r = true <->
        status_code r >= 400 \/ error r <> None \/ status_code r = -1).
Proof.
  intro H.
  destruct (H (mkTestResult 200 0 0 (Some EmptyString))) as [_ B].
  assert (is_failure (mkTestResult 200 0 0 (Some EmptyString)) = true) as F.
  { apply B. right. left. discriminate. }
  vm_compute in F. discriminate F.
Qed.

(** On any record: an outcome is a success exactly when
    [200 <= status_code < 400] and its error tag is [None]; it is a
    failure exactly when [status_code >= 400], or it carries a non-empty
    error tag, or [status_code = -1]. *)
Lemma classification_exact r :
  (is_success r = true <->
     200 <= status_code r < 400 /\ error r = None)
  /\ (is_failure r = true <->
       status_code r >= 400
       \/ (exists s, error r = Some s /\ s <> EmptyString)
       \/ status_code r = -1).
Proof. split; [apply is_success_spec|apply is_failure_spec]. Qed.

Lemma fold_left_add l : forall a,
  fold_left Z.add l a = a + fold_right Z.add 0 l.
Proof.
  induction l as [|x l IH]; intro a; simpl; [lia|]. rewrite IH. lia.
Qed.

Lemma total_data_sum rs :
  total_data rs = fold_right Z.add 0 (map response_size_bytes rs).
Proof. unfold total_data. now rewrite fold_left_add. Qed.

(** C9: for a non-empty result list the report is produced without any
    division by zero.  With [total_outcomes] the number of results and
    [total_bytes] the sum of their [response_size_bytes], its
    requests-per-second is [total_outcomes / duration] and its throughput
    is [total_bytes * 8 / (duration * 1_000_000)] when [duration > 0], and
    both are [0] when [duration <= 0]. *)
Theorem rps_and_throughput r rs d :
  let results := r :: rs in
  let total_outcomes := Z.of_nat (List.length results) in
  let total_bytes := fold_right Z.add 0 (map response_size_bytes results) in
  exists rep,
    print_summary results d = Ret (Some rep)
    /\ total_reqs rep = total_outcomes
    /\ data_bytes rep = total_bytes
    /\ compute_rps total_outcomes d = Ret (actual_rps rep)
    /\ compute_mbps total_bytes d = Ret (throughput_mbps rep)
    /\ ((0 < d)%Q ->
        actual_rps rep = (inject_Z total_outcomes / d)%Q
        /\ throughput_mbps rep
           = (inject_Z (total_bytes * 8) / (d * 1000000))%Q)
    /\ ((d <= 0)%Q ->
        actual_rps rep = 0%Q /\ throughput_mbps rep = 0%Q).
Proof.
  intros results total_outcomes total_bytes. exists (shown results d).
  assert (len results = total_outcomes) as L by reflexivity.
  assert (total_data results = total_bytes) as B by apply total_data_sum.
  split; [apply print_summary_cons|].
  cbn [shown total_reqs data_bytes actual_rps throughput_mbps].
  rewrite L, B.
  split; [reflexivity|]. split; [reflexivity|].
  split; [apply compute_rps_total|].
  split; [apply compute_mbps_total|].
  split; intro H.
  - apply Qgtb_true in H. rewrite H. split; reflexivity.
  - apply Qgtb_false in H. rewrite H. split; reflexivity.
Qed.

(** C10: an outcome with a status below 200 other than -1 and no error
    tag is neither a success nor a failure, and a report over a result
    list that contains one shows success and failure counts that sum to
    less than the total. *)
Theorem status_below_200_is_uncounted r rs d :
  status_code r < 200 -> status_code r <> -1 -> error r = None ->
  In r rs ->
  is_success r = false /\ is_failure r = false
  /\ exists rep,
       print_summary rs d = Ret (Some rep)
       /\ n_successes rep = len (successes rs)
       /\ n_failures rep = len (failures rs)
       /\ total_reqs rep = len rs
       /\ n_successes rep + n_failures rep < total_reqs rep.
Proof.
  intros L N E I.
  assert (is_success r = false) as S.
  { destruct (is_success r) eqn:S; [|reflexivity].
    apply is_success_spec in S. lia. }
  assert (is_failure r = false) as F.
  { destruct (is_failure r) eqn:F; [|reflexivity].
    apply is_failure_spec in F.
    destruct F as [F|[(s & F & _)|F]]; [lia|congruence|lia]. }
  split; [exact S|]. split; [exact F|].
  destruct rs as [|a rs']; [destruct I|].
  exists (shown (a :: rs') d). split; [apply print_summary_cons|].
  repeat (split; [reflexivity|]).
  exact (counts_lt r (a :: rs') I S F).
Qed.

Lemma status_below_200_is_uncounted_witness :
  let r := mkTestResult 101 (1 # 100) 0 None in
  is_success r = false /\ is_failure r = false
  /\ exists rep,
       print_summary [mkTestResult 200 (1 # 50) 12 None; r] 2%Q
       = Ret (Some rep)
       /\ n_successes rep = 1 /\ n_failures rep = 0 /\ total_reqs rep = 2
       /\ n_successes rep + n_failures rep < total_reqs rep.
Proof.
  apply (status_below_200_is_uncounted
           (mkTestResult 101 (1 # 100) 0 None)
           [mkTestResult 200 (1 # 50) 12 None;
            mkTestResult 101 (1 # 100) 0 None] 2%Q).
  - simpl; lia.
  - simpl; lia.
  - reflexivity.
  - simpl; auto.
Defined.

End StatisticsFacts.

(** ** Construction *)

Module ConfigFacts.
Import AdvancedLoadTester.

Lemma prefix_app p s :
  String.prefix p s = true <-> exists rest, s = (p ++ rest)%string.
Proof.
  revert s. induction p as [|c p IH]; intro s.
  - destruct s; simpl; split; eauto.
  - destruct s as [|c' s]; simpl.
    + split; [discriminate|]. intros (rest & E). discriminate E.
    + destruct (Ascii.ascii_dec c c') as [->|N].
      * rewrite IH. split; intros (rest & E); exists rest.
        -- now rewrite E.
        -- now inversion E.
      * split; [discriminate|]. intros (rest & E). inversion E. congruence.
Qed.

Lemma has_scheme_spec u :
  has_scheme u = true <->
  exists rest, u = ("http://" ++ rest)%string \/ u = ("https://" ++ rest)%string.
Proof.
  unfold has_scheme. rewrite orb_true_iff, !prefix_app.
  split.
  - intros [(rest & E)|(rest & E)]; exists rest; auto.
  - intros (rest & [E|E]); [left|right]; exists rest; exact E.
Qed.

Lemma validate_raises c :
  invalid c -> exists msg, _validate_config c = Raise (ValueError msg).
Proof.
  unfold invalid, _validate_config. intro H.
  destruct (requests c <=? 0) eqn:E1; [eauto|].
  destruct (concurrent c <=? 0) eqn:E2; [eauto|].
  destruct (rate c <=? 0) eqn:E3; [eauto|].
  destruct (has_scheme (url c)) eqn:E4; [|simpl; eauto].
  apply has_scheme_spec in E4.
  destruct H as [H|[H|[H|H]]]; try lia. contradiction.
Qed.

Lemma validate_returns c :
  ~ invalid c -> _validate_config c = Ret tt.
Proof.
  unfold invalid, _validate_config. intro H.
  destruct (requests c <=? 0) eqn:E1; [exfalso; apply H; lia|].
  destruct (concurrent c <=? 0) eqn:E2; [exfalso; apply H; lia|].
  destruct (rate c <=? 0) eqn:E3; [exfalso; apply H; lia|].
  destruct (has_scheme (url c)) eqn:E4; [reflexivity|].
  exfalso. apply H. right. right. right. intro S.
  apply has_scheme_spec in S. congruence.
Qed.

Lemma invalid_dec c : invalid c \/ ~ invalid c.
Proof.
  unfold invalid.
  destruct (has_scheme (url c)) eqn:E4.
  - apply has_scheme_spec in E4.
    destruct (Z_le_gt_dec (requests c) 0); [tauto|].
    destruct (Z_le_gt_dec (concurrent c) 0); [tauto|].
    destruct (Z_le_gt_dec (rate c) 0); [tauto|].
    right. intros [H|[H|[H|H]]]; try lia. contradiction.
  - left. right. right. right. intro S. apply has_scheme_spec in S. congruence.
Qed.

(** A successfully constructed tester holds the configuration it was
    given, an empty result list and a semaphore of [concurrent] permits. *)
Lemma init_returns c tester :
  __init__ c = Ret tester ->
  ~ invalid c /\ tester = mkTester c [] (concurrent c).
Proof.
  intro H. destruct (invalid_dec c) as [I|N].
  - exfalso. unfold __init__, Semaphore in H.
    destruct (concurrent c <? 0); [discriminate|]. simpl in H.
    destruct (validate_raises c I) as (msg & E). rewrite E in H. discriminate.
  - split; [exact N|]. unfold __init__, Semaphore in H.
    destruct (concurrent c <? 0) eqn:E.
    + exfalso. apply N. unfold invalid. lia.
    + simpl in H. rewrite (validate_returns c N) in H. simpl in H. congruence.
Qed.

(** C8: constructing a tester raises [ValueError], and no task is ever
    created, exactly when the request count, the concurrency or the rate
    is [<= 0] or the URL begins with neither [http://] nor [https://];
    otherwise the tester is constructed. *)
Theorem construction_fails_iff_invalid c :
  ((exists msg, __init__ c = Raise (ValueError msg)
                /\ start c = Raise (ValueError msg))
   <-> (requests c <= 0 \/ concurrent c <= 0 \/ rate c <= 0
        \/ ~ (exists rest, url c = ("http://" ++ rest)%string
                           \/ url c = ("https://" ++ rest)%string)))
  /\ ((exists tester, __init__ c = Ret tester)
      <-> ~ (requests c <= 0 \/ concurrent c <= 0 \/ rate c <= 0
             \/ ~ (exists rest, url c = ("http://" ++ rest)%string
                                \/ url c = ("https://" ++ rest)%string))).
Proof.
  fold (invalid c). split; split.
  - intros (msg & E & _). destruct (invalid_dec c) as [I|N]; [exact I|].
    exfalso. unfold __init__, Semaphore in E.
    destruct (concurrent c <? 0) eqn:L; [apply N; unfold invalid; lia|].
    simpl in E. rewrite (validate_returns c N) in E. discriminate.
  - intro I. unfold start, __init__, Semaphore.
    destruct (concurrent c <? 0); [simpl; eauto|]. simpl.
    destruct (validate_raises c I) as (msg & E). rewrite E. simpl. eauto.
  - intros (tester & E). now apply init_returns in E.
  - intro N. exists (mkTester c [] (concurrent c)).
    unfold __init__, Semaphore.
    destruct (concurrent c <? 0) eqn:L; [exfalso; apply N; unfold invalid; lia|].
    simpl. now rewrite (validate_returns c N).
Qed.

End ConfigFacts.

(** ** Tasks under the semaphore *)

Module RunFacts.
Import AdvancedLoadTester.

Lemma length_set_nth {A} i (x : A) l : List.length (set_nth i x l) = List.length l.
Proof.
  revert i. induction l as [|y l IH]; intros [|i]; simpl; auto.
Qed.

Lemma nth_error_set_nth_eq {A} i (x : A) l :
  (i < List.length l)%nat -> nth_error (set_nth i x l) i = Some x.
Proof.
  revert i. induction l as [|y l IH]; intros [|i] H; simpl in *;
    try lia; [reflexivity|]. apply IH. lia.
Qed.

Lemma nth_error_set_nth_neq {A} i j (x : A) l :
  i <> j -> nth_error (set_nth i x l) j = nth_error l j.
Proof.
  revert i j. induction l as [|y l IH]; intros [|i] [|j] H; simpl;
    try reflexivity; try congruence. apply IH. congruence.
Qed.

Lemma set_nth_set_nth {A} i (x y : A) l :
  set_nth i y (set_nth i x l) = set_nth i y l.
Proof.
  revert i. induction l as [|z l IH]; intros [|i]; simpl; try reflexivity.
  now rewrite IH.
Qed.

Lemma Forall_set_nth {A} (P : A -> Prop) i x l :
  Forall P l -> P x -> Forall P (set_nth i x l).
Proof.
  intros F Px. revert i. induction F as [|y l Py F IH]; intros [|i]; simpl;
    constructor; auto.
Qed.

Lemma holders_set_nth i t t' l :
  nth_error l i = Some t ->
  len (filter holds (set_nth i t' l))
  = len (filter holds l) - Z.b2z (holds t) + Z.b2z (holds t').
Proof.
  revert i. induction l as [|y l IH]; intros [|i] H; simpl in *;
    try discriminate.
  - inversion H; subst.
    destruct (holds t), (holds t'); rewrite ?len_cons; simpl; lia.
  - specialize (IH i H). destruct (holds y); rewrite ?len_cons; lia.
Qed.

Lemma nth_error_lt {A} (l : list A) i x :
  nth_error l i = Some x -> (i < List.length l)%nat.
Proof. intro H. apply nth_error_Some. congruence. Qed.

Lemma single_request_unfold d :
  single_request (Some d)
  = Acquire :: (if d =? 0 then [] else [Sleep d]) ++ [StartTimer; Http; Release].
Proof.
  unfold single_request, truthy_num. destruct (d =? 0); reflexivity.
Qed.

(** A move keeps a task among the listed states, and changes the counter
    by exactly the permit the task takes or gives back. *)
Lemma task_step_shape t ev t' dv :
  task_shape t -> task_step t ev = Some (t', dv) ->
  task_shape t' /\ dv = Z.b2z (holds t) - Z.b2z (holds t').
Proof.
  intros S H. destruct S; unfold task_step in H; simpl pc in H;
    rewrite ?single_request_unfold in H; cbn in H;
    destruct ev; try discriminate;
    try (destruct (_ =? _) eqn:E; [|discriminate]);
    inversion H; subst; clear H; (split; [|reflexivity]);
    try (constructor; unfold task_outcome; eauto; fail).
  - destruct (d =? 0) eqn:E; simpl; constructor. now apply Z.eqb_neq.
Qed.

(** Only the grant of a permit lowers the counter, and by one. *)
Lemma task_step_dv t ev t' dv :
  task_step t ev = Some (t', dv) ->
  -1 <= dv /\ (ev <> EvAcquire -> 0 <= dv).
Proof.
  unfold task_step. intro H.
  destruct (pc t) as [|[] rest]; destruct ev; try discriminate;
    try (destruct (_ =? _); [|discriminate]);
    inversion H; subst; split; try lia; congruence.
Qed.

Lemma sys_step_inv C s iev s' :
  sys_inv C s -> sys_step s iev = Some s' -> sys_inv C s'.
Proof.
  intros (F & V & P) H. destruct iev as [i ev]. unfold sys_step in H.
  destruct (nth_error (tasks s) i) as [t|] eqn:N; [|discriminate].
  destruct (task_step t ev) as [[t' dv]|] eqn:T; [|discriminate].
  assert (task_shape t) as St.
  { rewrite Forall_forall in F. apply F. eapply nth_error_In; eauto. }
  destruct (task_step_shape _ _ _ _ St T) as [St' D].
  destruct (match ev with EvAcquire => value s >? 0 | _ => true end) eqn:G;
    [|discriminate].
  inversion H; subst s'; clear H. unfold sys_inv, holders in *. simpl.
  split; [now apply Forall_set_nth|].
  rewrite (holders_set_nth i t t' _ N). split; [|lia].
  pose proof (task_step_dv _ _ _ _ T) as [L Q].
  destruct ev; try (specialize (Q ltac:(discriminate)); lia).
  apply Z.gtb_lt in G. lia.
Qed.

Lemma exec_inv C tr : forall s s',
  sys_inv C s -> exec s tr = Some s' -> sys_inv C s'.
Proof.
  induction tr as [|iev tr IH]; intros s s' I H; simpl in H.
  - now inversion H; subst.
  - destruct (sys_step s iev) as [s1|] eqn:E; [|discriminate].
    eapply IH; [|exact H]. eapply sys_step_inv; eauto.
Qed.

Lemma create_tasks_shape c : Forall task_shape (create_tasks c).
Proof.
  unfold create_tasks. apply Forall_forall. intros t I.
  apply in_map_iff in I. destruct I as (i & <- & _). constructor.
Qed.

Lemma create_tasks_idle c : filter holds (create_tasks c) = [].
Proof.
  unfold create_tasks. induction (range (requests c)); simpl; auto.
Qed.

Lemma length_create_tasks c :
  List.length (create_tasks c) = Z.to_nat (requests c).
Proof.
  unfold create_tasks, range. now rewrite !length_map, length_seq.
Qed.

Lemma initial_inv c tester :
  __init__ c = Ret tester -> sys_inv (concurrent c) (initial tester).
Proof.
  intro H. apply ConfigFacts.init_returns in H. destruct H as [N ->].
  unfold sys_inv, initial, holders. simpl.
  split; [apply create_tasks_shape|].
  rewrite create_tasks_idle. unfold len. simpl.
  split; [|lia]. unfold invalid in N. lia.
Qed.

Lemma exec_length tr : forall s s',
  exec s tr = Some s' -> List.length (tasks s') = List.length (tasks s).
Proof.
  induction tr as [|[i ev] tr IH]; intros s s' H; simpl in H.
  - now inversion H.
  - destruct (nth_error (tasks s) i) as [t|]; [|discriminate].
    destruct (task_step t ev) as [[t' dv]|]; [|discriminate].
    destruct (match ev with EvAcquire => value s >? 0 | _ => true end);
      [|discriminate].
    rewrite (IH _ _ H). simpl. apply length_set_nth.
Qed.

Lemma exec_app tr1 : forall s tr2 s',
  exec s (tr1 ++ tr2) = Some s' ->
  exists s1, exec s tr1 = Some s1 /\ exec s1 tr2 = Some s'.
Proof.
  induction tr1 as [|iev tr1 IH]; intros s tr2 s' H; simpl in *.
  - eauto.
  - destruct (sys_step s iev) as [s0|]; [|discriminate]. now apply IH.
Qed.

Lemma set_nth_same {A} i (x : A) l :
  nth_error l i = Some x -> set_nth i x l = l.
Proof.
  revert i. induction l as [|y l IH]; intros [|i] H; simpl in *;
    try discriminate.
  - now inversion H.
  - now rewrite IH.
Qed.

(** A task that is not asking for a permit is never held up: its own
    moves can be scheduled one after the other. *)
Lemma exec_task_run i evs : forall s t t' dv,
  nth_error (tasks s) i = Some t ->
  task_run t evs = Some (t', dv) ->
  ~ In EvAcquire evs ->
  exec s (map (pair i) evs)
  = Some (mkSystem (value s + dv) (set_nth i t' (tasks s))).
Proof.
  induction evs as [|ev evs IH]; intros s t t' dv N R A; simpl in *.
  - inversion R; subst. rewrite (set_nth_same _ _ _ N), Z.add_0_r.
    now destruct s.
  - rewrite N.
    destruct (task_step t ev) as [[t1 d1]|]; [|discriminate].
    destruct (task_run t1 evs) as [[t2 d2]|] eqn:R2; [|discriminate].
    inversion R; subst; clear R.
    assert ((match ev with EvAcquire => value s >? 0 | _ => true end) = true)
      as ->.
    { destruct ev; try reflexivity. exfalso. apply A. now left. }
    rewrite (IH _ t1 t' d2); simpl.
    + now rewrite set_nth_set_nth, Z.add_assoc.
    + apply nth_error_set_nth_eq. eapply nth_error_lt; eauto.
    + exact R2.
    + intro I. apply A. now right.
Qed.

(** Once inside the [async with], whatever the network answers, the
    task's remaining moves end with the release of its permit. *)
Lemma drain_run t tr elapsed :
  task_shape t -> holds t = true ->
  ~ In EvAcquire (drain tr elapsed (pc t))
  /\ exists o,
      task_run t (drain tr elapsed (pc t))
      = Some (mkTask (request_delay t) [] false (Some o), 1).
Proof.
  intros S H. destruct S; simpl in H; try discriminate; simpl;
    (split; [intuition discriminate|]);
    unfold task_step; simpl; rewrite ?Z.eqb_refl; simpl; eauto.
Qed.

Lemma task_step_delay t ev t' dv :
  task_step t ev = Some (t', dv) -> request_delay t' = request_delay t.
Proof.
  unfold task_step. intro H.
  destruct (pc t) as [|[] rest]; destruct ev; try discriminate;
    try (destruct (_ =? _); [|discriminate]);
    inversion H; subst; reflexivity.
Qed.

(** Only the grant of a permit puts a task inside the [async with]. *)
Lemma task_step_enters t ev t' dv :
  task_step t ev = Some (t', dv) ->
  holds t = false -> holds t' = true -> ev = EvAcquire.
Proof.
  unfold task_step. intros H F T.
  destruct (pc t) as [|[] rest]; destruct ev; try discriminate;
    try (destruct (_ =? _); [|discriminate]);
    inversion H; subst; simpl in *; congruence.
Qed.

Lemma sys_step_lookup s i ev s' j t' :
  sys_step s (i, ev) = Some s' ->
  nth_error (tasks s') j = Some t' ->
  exists t, nth_error (tasks s) j = Some t
            /\ request_delay t' = request_delay t
            /\ (holds t = false -> holds t' = true ->
                i = j /\ ev = EvAcquire).
Proof.
  unfold sys_step. intros H N.
  destruct (nth_error (tasks s) i) as [t|] eqn:Ni; [|discriminate].
  destruct (task_step t ev) as [[t1 dv]|] eqn:T; [|discriminate].
  destruct (match ev with EvAcquire => value s >? 0 | _ => true end);
    [|discriminate].
  inversion H; subst s'; clear H. simpl in N.
  destruct (Nat.eq_dec i j) as [<-|D].
  - rewrite nth_error_set_nth_eq in N by (eapply nth_error_lt; eauto).
    inversion N; subst t1. exists t. split; [exact Ni|].
    split; [eapply task_step_delay; eauto|].
    intros F T'. split; [reflexivity|]. eapply task_step_enters; eauto.
  - rewrite nth_error_set_nth_neq in N by exact D.
    exists t'. split; [exact N|]. split; [reflexivity|]. congruence.
Qed.

Lemma exec_lookup tr : forall s s' j t',
  exec s tr = Some s' ->
  nth_error (tasks s') j = Some t' ->
  exists t, nth_error (tasks s) j = Some t
            /\ request_delay t' = request_delay t
            /\ (holds t = false -> holds t' = true ->
                In (j, EvAcquire) tr).
Proof.
  induction tr as [|[i ev] tr IH]; intros s s' j t' H N.
  - simpl in H. inversion H; subst. exists t'. repeat split; auto.
    congruence.
  - cbn [exec] in H.
    destruct (sys_step s (i, ev)) as [s1|] eqn:E; [|discriminate].
    destruct (IH _ _ _ _ H N) as (t1 & N1 & D1 & A1).
    destruct (sys_step_lookup _ _ _ _ _ _ E N1) as (t & N0 & D0 & A0).
    exists t. split; [exact N0|]. split; [congruence|].
    intros F T. destruct (holds t1) eqn:H1.
    + destruct (A0 F eq_refl) as [-> ->]. now left.
    + right. now apply A1.
Qed.

Lemma sleep_step_shape t d t' dv :
  task_shape t -> task_step t (EvSleep d) = Some (t', dv) ->
  t = mkTask d [Sleep d; StartTimer; Http; Release] true None /\ d <> 0.
Proof.
  intros S H. destruct S; unfold task_step in H; simpl pc in H;
    rewrite ?single_request_unfold in H; try discriminate.
  cbn in H. destruct (d0 =? d) eqn:E; [|discriminate].
  apply Z.eqb_eq in E. subst. auto.
Qed.

Lemma nth_error_range n k :
  (k < Z.to_nat n)%nat -> nth_error (range n) k = Some (Z.of_nat k).
Proof.
  intro H. unfold range.
  rewrite nth_error_map, nth_error_nth' with (d := O) by now rewrite length_seq.
  now rewrite seq_nth.
Qed.

Lemma nth_error_create_tasks c k t :
  nth_error (create_tasks c) k = Some t ->
  t = mkTask (delay c (Z.of_nat k))
        (single_request (Some (delay c (Z.of_nat k)))) false None.
Proof.
  intro H. pose proof (nth_error_lt _ _ _ H) as L.
  rewrite length_create_tasks in L. unfold create_tasks in H.
  rewrite nth_error_map, nth_error_range in H by exact L.
  simpl in H. congruence.
Qed.

(** C5: all along a run, under every interleaving, the number of tasks
    inside the [async with] is at most the configured concurrency (it is
    the concurrency minus the semaphore's counter); a finished task holds
    no permit; and a task that holds one gives it back whatever the network
    answers (a response, a timeout, any exception) and also when an
    exception is thrown into its sleep: its remaining moves are always
    enabled and end with the release. *)
Theorem permits_bounded_and_released c tester tr s :
  __init__ c = Ret tester ->
  exec (initial tester) tr = Some s ->
  0 <= holders s <= concurrent c
  /\ value s = concurrent c - holders s
  /\ forall i t, nth_error (tasks s) i = Some t ->
       (finished t = true -> holds t = false)
       /\ (holds t = true ->
           forall transport elapsed,
           exists s' t',
             exec s (map (pair i) (drain transport elapsed (pc t))) = Some s'
             /\ nth_error (tasks s') i = Some t'
             /\ finished t' = true /\ holds t' = false
             /\ value s' = value s + 1
             /\ holders s' = holders s - 1)
       /\ (forall d rest e, pc t = Sleep d :: rest ->
           exists s' t',
             exec s [(i, EvThrow e); (i, EvRelease)] = Some s'
             /\ nth_error (tasks s') i = Some t'
             /\ finished t' = true /\ holds t' = false
             /\ result t' = Some (Raise e)
             /\ value s' = value s + 1).
Proof.
  intros I E. pose proof (exec_inv _ _ _ _ (initial_inv _ _ I) E) as (F & V & P).
  split; [unfold holders in *; pose proof (len_nonneg (filter holds (tasks s))); lia|].
  split; [lia|].
  intros i t N.
  assert (task_shape t) as S.
  { rewrite Forall_forall in F. apply F. eapply nth_error_In; eauto. }
  pose proof (nth_error_lt _ _ _ N) as L.
  split; [|split].
  - intro Fin. destruct S; try reflexivity; discriminate Fin.
  - intros H transport elapsed.
    destruct (drain_run t transport elapsed S H) as (A & o & R).
    rewrite (exec_task_run i _ s t _ _ N R A).
    eexists. eexists. split; [reflexivity|]. simpl.
    split; [now apply nth_error_set_nth_eq|].
    split; [reflexivity|]. split; [reflexivity|]. split; [reflexivity|].
    unfold holders. simpl. rewrite (holders_set_nth i t _ _ N), H. simpl. lia.
  - intros d rest e Hpc.
    assert (task_run t [EvThrow e; EvRelease]
            = Some (mkTask (request_delay t) [] false (Some (Raise e)), 1)) as R.
    { destruct S; try discriminate Hpc. reflexivity. }
    assert (~ In EvAcquire [EvThrow e; EvRelease]) as A
      by (simpl; intuition discriminate).
    pose proof (exec_task_run i _ s t _ _ N R A) as X. cbn [map] in X.
    rewrite X.
    eexists. eexists. split; [reflexivity|]. simpl.
    split; [now apply nth_error_set_nth_eq|]. repeat split.
Qed.

Lemma permits_bounded_and_released_witness :
  0 <= holders Demo.busy <= 2
  /\ value Demo.busy = 2 - holders Demo.busy
  /\ forall i t, nth_error (tasks Demo.busy) i = Some t ->
       (finished t = true -> holds t = false)
       /\ (holds t = true ->
           forall transport elapsed,
           exists s' t',
             exec Demo.busy (map (pair i) (drain transport elapsed (pc t)))
             = Some s'
             /\ nth_error (tasks s') i = Some t'
             /\ finished t' = true /\ holds t' = false
             /\ value s' = value Demo.busy + 1
             /\ holders s' = holders Demo.busy - 1)
       /\ (forall d rest e, pc t = Sleep d :: rest ->
           exists s' t',
             exec Demo.busy [(i, EvThrow e); (i, EvRelease)] = Some s'
             /\ nth_error (tasks s') i = Some t'
             /\ finished t' = true /\ holds t' = false
             /\ result t' = Some (Raise e)
             /\ value s' = value Demo.busy + 1).
Proof.
  apply (permits_bounded_and_released
           Demo.cfg Demo.tester Demo.busy_schedule Demo.busy).
  - reflexivity.
  - reflexivity.
Defined.

(** C4, as stated, fails: request 2 of the small run has a scheduled
    delay of one second and is granted its permit before it has slept. *)
Lemma permit_granted_before_the_delay :
  ~ (forall c tester tr1 i tr2 s,
        __init__ c = Ret tester ->
        exec (initial tester) (tr1 ++ (i, EvAcquire) :: tr2) = Some s ->
        delay c (Z.of_nat i) <> 0 ->
        exists d, In (i, EvSleep d) tr1).
Proof.
  intro H.
  destruct (H Demo.cfg Demo.tester [(0%nat, EvAcquire)] 2%nat
              [(0%nat, EvTimer)] Demo.busy eq_refl eq_refl)
    as (d & [E|[]]).
  - vm_compute. discriminate.
  - discriminate E.
Qed.

End RunFacts.

(** ** The rate schedule *)

Module ScheduleFacts.
Import AdvancedLoadTester.

Lemma admissible_nonneg ins dt : admissible ins dt = true -> (0 <= dt)%Q.
Proof.
  unfold admissible. intro H. apply andb_true_iff in H.
  now apply Qle_bool_iff.
Qed.

Lemma admissible_sleep d dt :
  admissible (Sleep d) dt = true -> (inject_Z d <= dt)%Q.
Proof.
  unfold admissible. intro H. apply andb_true_iff in H.
  now apply Qle_bool_iff.
Qed.

Lemma timing_ok_cons ins code dts :
  timing_ok (ins :: code) dts = true ->
  exists dt dts', dts = dt :: dts'
                  /\ admissible ins dt = true /\ timing_ok code dts' = true.
Proof.
  destruct dts as [|dt dts']; simpl; [discriminate|].
  intro H. apply andb_true_iff in H. exists dt, dts'. tauto.
Qed.

(** The HTTP call of a task is issued no sooner than [request_delay]
    seconds after the task starts running. *)
Lemma http_after_delay d now dts :
  0 <= d ->
  timing_ok (single_request (Some d)) dts = true ->
  exists at_, http_time now (single_request (Some d)) dts = Some at_
              /\ (now + inject_Z d <= at_)%Q.
Proof.
  intros P T. rewrite RunFacts.single_request_unfold in *.
  apply timing_ok_cons in T. destruct T as (a & dts1 & -> & A & T).
  apply admissible_nonneg in A.
  destruct (d =? 0) eqn:E; cbn [app] in *.
  - apply Z.eqb_eq in E. subst d.
    apply timing_ok_cons in T. destruct T as (b & dts2 & -> & B & T).
    apply admissible_nonneg in B.
    eexists. split; [reflexivity|]. change (inject_Z 0) with 0%Q. lra.
  - apply timing_ok_cons in T. destruct T as (b & dts2 & -> & B & T).
    apply timing_ok_cons in T. destruct T as (c & dts3 & -> & C & T).
    apply admissible_sleep in B. apply admissible_nonneg in C.
    eexists. split; [reflexivity|]. lra.
Qed.

(** C7: for a rate [R > 0], request [i] is given the delay
    [floor (i / R)] seconds: the task created for index [i] carries it,
    and in every timing of that task its HTTP call is issued at least
    [floor (i / R)] seconds after the task started running. *)
Theorem staircase_delay c i :
  rate c > 0 -> 0 <= i ->
  delay c i = i / rate c
  /\ rate c * delay c i <= i < rate c * (delay c i + 1)
  /\ (i < requests c ->
      nth_error (create_tasks c) (Z.to_nat i)
      = Some (mkTask (i / rate c) (single_request (Some (i / rate c)))
                false None))
  /\ forall now dts,
      timing_ok (single_request (Some (delay c i))) dts = true ->
      exists at_,
        http_time now (single_request (Some (delay c i))) dts = Some at_
        /\ (now + inject_Z (i / rate c) <= at_)%Q.
Proof.
  intros R I.
  assert (delay c i = i / rate c) as D.
  { unfold delay. destruct (rate c >? 0) eqn:E; [reflexivity|lia]. }
  split; [exact D|]. rewrite D.
  split.
  { pose proof (Z.mul_div_le i (rate c) ltac:(lia)).
    pose proof (Z.mul_succ_div_gt i (rate c) ltac:(lia)). lia. }
  split.
  { intro L. unfold create_tasks.
    rewrite nth_error_map, RunFacts.nth_error_range by lia. simpl.
    rewrite Z2Nat.id by lia. now rewrite D. }
  intros now dts T. apply http_after_delay; [|exact T].
  apply Z.div_pos; lia.
Qed.

Lemma staircase_delay_witness :
  delay Demo.cfg 2 = 2 / 2
  /\ 2 * delay Demo.cfg 2 <= 2 < 2 * (delay Demo.cfg 2 + 1)
  /\ (2 < 3 ->
      nth_error (create_tasks Demo.cfg) 2
      = Some (mkTask (2 / 2) (single_request (Some (2 / 2))) false None))
  /\ forall now dts,
      timing_ok (single_request (Some (delay Demo.cfg 2))) dts = true ->
      exists at_,
        http_time now (single_request (Some (delay Demo.cfg 2))) dts
        = Some at_
        /\ (now + inject_Z (2 / 2) <= at_)%Q.
Proof.
  apply (staircase_delay Demo.cfg 2).
  - simpl. lia.
  - lia.
Defined.

End ScheduleFacts.

(** ** The collection loop *)

Module CollectFacts.
Import AdvancedLoadTester StatisticsCalculator.

(** When no awaited task raises outside [Exception], the loop ends
    normally and appends one entry per task, in the order of completion. *)
Lemma collect_all os : forall acc,
  (forall e, In (Raise e) os -> isa_Exception e = true) ->
  (forall o, In o os -> o <> Ret VOther) ->
  exists rs, collect acc os = ((acc ++ rs)%list, None) /\ Forall2 yields os rs.
Proof.
  induction os as [|o os IH]; intros acc E V.
  - exists []. simpl. rewrite app_nil_r. split; constructor.
  - assert (exists r, collect_one acc o = ((acc ++ [r])%list, None) /\ yields o r)
      as (r & C & Y).
    { destruct o as [[r|]|e]; simpl.
      - exists r. split; [reflexivity|]. now left.
      - exfalso. apply (V (Ret VOther)); [now left|reflexivity].
      - rewrite (E e) by now left.
        exists (error_result e). split; [reflexivity|].
        right. exists e. repeat split. apply E. now left. }
    destruct (IH (acc ++ [r])%list) as (rs & C' & Y').
    + intros e I. apply E. now right.
    + intros o' I. apply V. now right.
    + exists (r :: rs). cbn [collect]. rewrite C, C', <- app_assoc.
      split; [reflexivity|]. now constructor.
Qed.


(** Every collected entry was returned by a task or is the fallback for
    a task that raised. *)
Lemma collect_origin os : forall acc rs exc r,
  collect acc os = (rs, exc) -> In r rs ->
  In r acc \/ exists o, In o os /\ yields o r.
Proof.
  induction os as [|o os IH]; intros acc rs exc r C I.
  - simpl in C. inversion C; subst. now left.
  - cbn [collect] in C.
    assert (forall x, In x (fst (collect_one acc o)) ->
                      In x acc \/ yields o x) as Step.
    { intros x. destruct o as [[r0|]|e]; simpl.
      - rewrite in_app_iff. intros [H|[<-|[]]]; [now left|right; now left].
      - now left.
      - destruct (isa_Exception e) eqn:Ex; simpl; [|now left].
        rewrite in_app_iff. intros [H|[<-|[]]]; [now left|].
        right. right. exists e. auto. }
    destruct (collect_one acc o) as [acc' [x|]] eqn:O.
    + inversion C; subst. destruct (Step r I) as [H|H]; [now left|].
      right. exists o. split; [now left|exact H].
    + destruct (IH _ _ _ _ C I) as [H|(o' & H & Y)].
      * destruct (Step r H) as [H'|H']; [now left|].
        right. exists o. split; [now left|exact H'].
      * right. exists o'. split; [now right|exact Y].
Qed.

Lemma as_completed_origin ts order : forall os o,
  as_completed ts order = Some os -> In o os ->
  exists t, In t ts /\ awaited t = Some o.
Proof.
  induction order as [|i order IH]; intros os o A I; simpl in A.
  - inversion A; subst. destruct I.
  - destruct (nth_error ts i) as [t|] eqn:N; [|discriminate].
    destruct (awaited t) as [o0|] eqn:W; [|discriminate].
    destruct (as_completed ts order) as [os0|]; [|discriminate].
    inversion A; subst. destruct I as [<-|I].
    + exists t. split; [eapply nth_error_In; eauto|exact W].
    + eapply IH; eauto.
Qed.

Lemma as_completed_all ts order : forall done,
  map Some done = map (nth_error ts) order ->
  Forall (fun t => finished t = true /\ task_shape t) done ->
  exists os, as_completed ts order = Some os
             /\ Forall2 (fun t o => awaited t = Some o) done os.
Proof.
  induction order as [|i order IH]; intros done M F.
  - destruct done; [|discriminate]. exists []. split; constructor.
  - destruct done as [|t done]; [discriminate|].
    simpl in M. inversion M as [[N M']]. inversion F as [|? ? [Fin S] F']; subst.
    destruct (IH done M' F') as (os & A & W).
    assert (exists o, awaited t = Some o) as (o & Wt).
    { destruct S; try discriminate Fin.
      unfold awaited. simpl. destruct o; eauto. }
    exists (o :: os). simpl. rewrite <- N, Wt, A.
    split; [reflexivity|]. now constructor.
Qed.

Lemma lookup_all {A} (l : list A) order :
  (forall i, In i order -> (i < List.length l)%nat) ->
  exists done, map Some done = map (nth_error l) order.
Proof.
  induction order as [|i order IH]; intro H.
  - now exists [].
  - destruct IH as (done & M); [intros j I; apply H; now right|].
    destruct (nth_error l i) as [x|] eqn:N.
    + exists (x :: done). simpl. now rewrite M, N.
    + apply nth_error_None in N. specialize (H i (or_introl eq_refl)). lia.
Qed.

Lemma lookup_seq {A} (l : list A) :
  map (nth_error l) (seq 0 (List.length l)) = map Some l.
Proof.
  induction l as [|x l IH]; [reflexivity|].
  simpl. f_equal. rewrite <- seq_shift, map_map. exact IH.
Qed.

Lemma map_Some_inj {A} (l1 : list A) : forall l2,
  map Some l1 = map Some l2 -> l1 = l2.
Proof.
  induction l1 as [|x l1 IH]; intros [|y l2] H; simpl in H;
    try discriminate; [reflexivity|].
  inversion H. f_equal. now apply IH.
Qed.

(** The tasks met in the order of completion are the tasks of the run,
    each exactly once. *)
Lemma completion_order {A} (l : list A) order :
  Permutation order (seq 0 (List.length l)) ->
  exists done, map Some done = map (nth_error l) order /\ Permutation done l.
Proof.
  intro P.
  destruct (lookup_all l order) as (done & M).
  { intros i I. apply (Permutation_in _ P) in I. apply in_seq in I. lia. }
  exists done. split; [exact M|].
  assert (Permutation (map Some done) (map Some l)) as Q.
  { rewrite M, <- lookup_seq. now apply Permutation_map. }
  apply Permutation_sym, Permutation_map_inv in Q.
  destruct Q as (l3 & E & Q). apply map_Some_inj in E. subst l3.
  now apply Permutation_sym.
Qed.


Lemma Forall2_In_r {A B} (R : A -> B -> Prop) l1 l2 y :
  Forall2 R l1 l2 -> In y l2 -> exists x, In x l1 /\ R x y.
Proof.
  induction 1 as [|a b l1 l2 Rab F IH]; intros I; [destruct I|].
  destruct I as [<-|I].
  - exists a. split; [now left|exact Rab].
  - destruct (IH I) as (x & Ix & Rx). exists x. split; [now right|exact Rx].
Qed.


Lemma awaited_raise t e :
  awaited t = Some (Raise e) <-> result t = Some (Raise e).
Proof.
  unfold awaited. destruct (result t) as [[r|e0]|]; split; congruence.
Qed.


Lemma awaited_value t o : awaited t = Some o -> o <> Ret VOther.
Proof.
  unfold awaited. destruct (result t) as [[r0|e0]|]; congruence.
Qed.


Lemma demo_order : Permutation [0; 2; 1]%nat (seq 0 3).
Proof. apply perm_skip, perm_swap. Qed.


Lemma attempt_result tr elapsed r :
  attempt tr elapsed = Ret r ->
  (exists status n, r = mkTestResult status elapsed (Z.of_nat n) None)
  \/ (status_code r = -1 /\ response_size_bytes r = 0
      /\ is_failure r = true
      /\ exists tag, error r = Some tag /\ code_tag tag).
Proof.
  unfold attempt. destruct tr as [status n|e].
  - intro H. inversion H; subst. left. eauto.
  - intro H. right. unfold code_tag.
    destruct (isa_TimeoutError e);
      [|destruct (isa_ClientError e); [|destruct (isa_Exception e)]];
      inversion H; subst; simpl;
      (split; [reflexivity|]); (split; [reflexivity|]);
      (split; [reflexivity|]); eexists; (split; [reflexivity|]); eauto.
Qed.

Lemma error_result_tagged e :
  status_code (error_result e) = -1
  /\ response_size_bytes (error_result e) = 0
  /\ is_failure (error_result e) = true
  /\ exists tag, error (error_result e) = Some tag /\ code_tag tag.
Proof.
  unfold error_result, code_tag. simpl. repeat split.
  eexists. split; [reflexivity|]. right. right. right. eauto.
Qed.


(** Every result collected during a run has one of two shapes: built
    from an HTTP response, without error tag, or without response, with
    status [-1], size [0] and one of the error strings of the program. *)
Lemma gathered_result_shape c tester tr final order rs exc r :
  __init__ c = Ret tester ->
  exec (initial tester) tr = Some final ->
  gather final order = Some (rs, exc) ->
  In r rs ->
  ((exists status n elapsed,
       r = mkTestResult status elapsed (Z.of_nat n) None)
   \/ (status_code r = -1 /\ response_size_bytes r = 0
       /\ is_failure r = true
       /\ exists tag, error r = Some tag /\ code_tag tag))
  /\ (is_success r = true -> error r = None).
Proof.
  intros I E G Ir.
  split; [|intro S; now apply StatisticsFacts.is_success_spec in S].
  pose proof (RunFacts.exec_inv _ _ _ _ (RunFacts.initial_inv _ _ I) E)
    as (F & _ & _).
  unfold gather in G.
  destruct (as_completed (tasks final) order) as [os|] eqn:A; [|discriminate].
  inversion G as [C]; clear G.
  destruct (collect_origin _ _ _ _ _ C Ir) as [[]|(o & Io & Y)].
  destruct (as_completed_origin _ _ _ _ A Io) as (t & It & W).
  rewrite Forall_forall in F. specialize (F t It).
  destruct Y as [->|(e & -> & _ & ->)].
  - assert (result t = Some (Ret r)) as R.
    { unfold awaited in W. destruct (result t) as [[r0|e0]|]; congruence. }
    destruct F; simpl in R; try discriminate;
      inversion R; subst;
      match goal with
      | H : task_outcome _ |- _ =>
          destruct H as [(tr0 & el & X)|(e & X)]; [|discriminate X]
      end;
      symmetry in X; apply attempt_result in X;
      (destruct X as [(status & n & ->)|X]; [left; eauto|right; exact X]).
  - right. apply error_result_tagged.
Qed.

End CollectFacts.

(** ** Scenarios *)

Module Scenarios.
Import AdvancedLoadTester StatisticsCalculator.

(** Five requests answered with status 200 in 5 ms each, over a run of
    one second: five successes, no failure, a success rate of 100 %, five
    requests per second, and a latency sample of five times 5 ms. *)
Example all_succeed :
  let ok := mkTestResult 200 (5 # 1000) 128 None in
  exists rep,
    print_summary [ok; ok; ok; ok; ok] 1%Q = Ret (Some rep)
    /\ n_successes rep = 5 /\ n_failures rep = 0
    /\ (success_rate rep == 100)%Q /\ (failure_rate rep == 0)%Q
    /\ (actual_rps rep == 5)%Q
    /\ (throughput_mbps rep == 5120 # 1000000)%Q
    /\ option_map latencies_ms (latency rep)
       = Some (map (fun _ => (5 # 1000) * 1000)%Q (seq 0 5))
    /\ option_map histogram (latency rep) = Some false.
Proof.
  eexists. split; [reflexivity|]. simpl. repeat split; reflexivity.
Qed.

(** Every request times out: no success, only failures, no latency
    section, and the rates are still computed from all outcomes. *)
Example all_time_out :
  let late := mkTestResult (-1) 30 0 (Some "TimeoutError") in
  exists rep,
    print_summary [late; late; late] 60%Q = Ret (Some rep)
    /\ n_successes rep = 0 /\ n_failures rep = 3
    /\ (failure_rate rep == 100)%Q
    /\ (actual_rps rep == 3 # 60)%Q
    /\ latency rep = None.
Proof.
  eexists. split; [reflexivity|]. simpl. repeat split; reflexivity.
Qed.

(** An empty result list is reported as "No results to display." *)
Example nothing_to_display d : print_summary [] d = Ret None.
Proof. reflexivity. Qed.

(** A duration of zero is reported with both rates at [0]. *)
Example zero_duration :
  exists rep,
    print_summary [mkTestResult 200 (1 # 100) 64 None] 0%Q = Ret (Some rep)
    /\ actual_rps rep = 0%Q /\ throughput_mbps rep = 0%Q.
Proof. eexists. split; [reflexivity|]. split; reflexivity. Qed.

(** With a rate of 2 the delays climb one second every two requests. *)
Example staircase :
  map (delay (mkConfig "http://localhost/" "GET" 7 3 2)) (range 7)
  = [0; 0; 1; 1; 2; 2; 3].
Proof. reflexivity. Qed.

(** The first request sleeps not at all, the third for one second, and
    in both the permit is taken first. *)
Example code_of_requests :
  single_request (Some 0) = [Acquire; StartTimer; Http; Release]
  /\ single_request (Some 1) = [Acquire; Sleep 1; StartTimer; Http; Release]
  /\ single_request None = [Acquire; StartTimer; Http; Release].
Proof. repeat split. Qed.

(** The order of the [except] clauses: a timeout that is also a client
    error is reported as a timeout. *)
Example timeout_before_client_error :
  attempt (Failed Demo.ServerTimeoutError) 30
  = Ret (mkTestResult (-1) 30 0 (Some "TimeoutError"))
  /\ attempt (Failed Demo.ClientConnectorError) 1
     = Ret (mkTestResult (-1) 1 0 (Some "ClientError: ClientConnectorError"))
  /\ attempt (Failed Demo.RuntimeError) 1
     = Ret (mkTestResult (-1) 1 0 (Some "UnexpectedError: RuntimeError"))
  /\ attempt (Failed CancelledError) 1 = Raise CancelledError.
Proof. repeat split. Qed.

(** Construction: a negative concurrency is rejected by the semaphore,
    the other faults by [_validate_config]. *)
Example rejected_configurations :
  __init__ (mkConfig "http://localhost/" "GET" 10 (-1) 5)
  = Raise (ValueError "Semaphore initial value must be >= 0")
  /\ __init__ (mkConfig "http://localhost/" "GET" 10 0 5)
     = Raise (ValueError "Concurrency must be greater than 0")
  /\ __init__ (mkConfig "http://localhost/" "GET" 0 4 5)
     = Raise (ValueError "Number of requests must be greater than 0")
  /\ __init__ (mkConfig "http://localhost/" "GET" 10 4 0)
     = Raise (ValueError "Rate limit must be greater than 0")
  /\ __init__ (mkConfig "ftp://localhost/" "GET" 10 4 5)
     = Raise (ValueError "URL must start with http:// or https://")
  /\ __init__ (mkConfig "HTTP://localhost/" "GET" 10 4 5)
     = Raise (ValueError "URL must start with http:// or https://")
  /\ __init__ Demo.cfg = Ret Demo.tester.
Proof. repeat split. Qed.

(** The run in which every request fails is gathered whole: three
    results for three requests, in the order of completion. *)
Example failing_run_is_gathered :
  exec (initial Demo.tester) Demo.failing_schedule = Some Demo.failed
  /\ gather Demo.failed [0; 2; 1]%nat
     = Some ([mkTestResult (-1) 30 0 (Some "TimeoutError");
              mkTestResult (-1) 0 0 (Some "TaskError: RuntimeError");
              mkTestResult (-1) (1 # 100) 0
                (Some "ClientError: ClientConnectorError")], None).
Proof. split; reflexivity. Qed.

(** A cancelled task interrupts the gathering: what was collected before
    it stays in [self.results]. *)
Example interrupted_gathering :
  collect []
    [Ret (VTestResult (mkTestResult 200 (1 # 10) 5 None));
     Raise CancelledError;
     Ret (VTestResult (mkTestResult 200 (1 # 10) 5 None))]
  = ([mkTestResult 200 (1 # 10) 5 None], Some CancelledError).
Proof. reflexivity. Qed.

(** With both permits taken, one of them by a request that is asleep, the
    waiting request cannot be granted one. *)
Example no_third_permit :
  holders Demo.busy = 2 /\ value Demo.busy = 0
  /\ sys_step Demo.busy (1%nat, EvAcquire) = None.
Proof. repeat split. Qed.

End Scenarios.

(** ** Dictionaries and sorting *)

Module DictFacts.
Import PyDict.

Section Dict.
Context {K V : Type} (eqb : K -> K -> bool).
Hypothesis eqb_eq : forall a b, eqb a b = true <-> a = b.

Lemma eqb_refl' k : eqb k k = true.
Proof. now apply eqb_eq. Qed.

Lemma eqb_neq' a b : a <> b -> eqb a b = false.
Proof.
  intro N. destruct (eqb a b) eqn:E; [|reflexivity].
  apply eqb_eq in E. contradiction.
Qed.

Lemma get_set_eq (d : dict (V := V)) k v : get eqb (set eqb d k v) k = Some v.
Proof.
  induction d as [|[k' v'] d IH]; simpl.
  - now rewrite eqb_refl'.
  - destruct (eqb k k') eqn:E; simpl; rewrite E; auto.
Qed.

Lemma get_set_neq (d : dict (V := V)) k v k' :
  k <> k' -> get eqb (set eqb d k v) k' = get eqb d k'.
Proof.
  intro N. induction d as [|[k0 v0] d IH]; simpl.
  - rewrite eqb_neq' by congruence. reflexivity.
  - destruct (eqb k k0) eqn:E; simpl.
    + apply eqb_eq in E. subst k0.
      rewrite (eqb_neq' k' k) by congruence. reflexivity.
    + now rewrite IH.
Qed.

Lemma keys_set (d : dict (V := V)) k v k' :
  In k' (keys (set eqb d k v)) <-> k' = k \/ In k' (keys d).
Proof.
  induction d as [|[k0 v0] d IH]; simpl.
  - intuition.
  - destruct (eqb k k0) eqn:E; simpl.
    + apply eqb_eq in E. subst k0. intuition.
    + rewrite IH. intuition.
Qed.

Lemma NoDup_set (d : dict (V := V)) k v :
  NoDup (keys d) -> NoDup (keys (set eqb d k v)).
Proof.
  induction d as [|[k0 v0] d IH]; simpl; intro N.
  - constructor; [intros []|constructor].
  - inversion N as [|? ? Nin N']; subst.
    destruct (eqb k k0) eqn:E; simpl; constructor; auto.
    fold (keys (set eqb d k v)). rewrite keys_set. intros [->|I].
    + rewrite eqb_refl' in E. discriminate.
    + contradiction.
Qed.

Lemma In_get (d : dict (V := V)) k v :
  NoDup (keys d) -> (In (k, v) d <-> get eqb d k = Some v).
Proof.
  induction d as [|[k0 v0] d IH]; simpl; intro N.
  - split; [intros []|discriminate].
  - inversion N as [|? ? Nin N']; subst. destruct (eqb k k0) eqn:E.
    + apply eqb_eq in E. subst k0. split.
      * intros [H|H]; [congruence|]. exfalso. apply Nin.
        apply in_map_iff. exists (k, v). auto.
      * intro H. left. congruence.
    + rewrite <- (IH N'). split; [|auto].
      intros [H|H]; [|exact H]. inversion H; subst.
      rewrite eqb_refl' in E. discriminate.
Qed.

End Dict.

Section Counting.
Context {K : Type} (eqb : K -> K -> bool).
Hypothesis eqb_eq : forall a b, eqb a b = true <-> a = b.

Lemma total_set (d : dict (K := K)) k v :
  total (set eqb d k v) = total d - get_default eqb d k 0 + v.
Proof.
  unfold total, get_default. induction d as [|[k0 v0] d IH]; simpl.
  - lia.
  - destruct (eqb k k0); simpl; lia.
Qed.

(** Counting a sequence of keys into a dictionary: each key gains the
    number of its occurrences, no key is repeated, and the total grows by
    the length of the sequence. *)
Lemma tally_spec ks : forall d : dict (K := K),
  NoDup (keys d) ->
  NoDup (keys (tally eqb ks d))
  /\ (forall k, get_default eqb (tally eqb ks d) k 0
                = get_default eqb d k 0 + len (filter (eqb k) ks))
  /\ (forall k, In k (keys (tally eqb ks d)) <-> In k (keys d) \/ In k ks)
  /\ total (tally eqb ks d) = total d + len ks.
Proof.
  induction ks as [|k0 ks IH]; intros d N; simpl.
  - repeat split; auto; try tauto; unfold len; simpl; lia.
  - destruct (IH (count_key eqb d k0)) as (N' & G & I & T).
    { now apply NoDup_set. }
    split; [exact N'|]. split; [|split].
    + intro k. rewrite G. unfold count_key, get_default at 1.
      destruct (eqb k k0) eqn:E.
      * apply eqb_eq in E. subst k0. rewrite get_set_eq by exact eqb_eq.
        rewrite len_cons. unfold get_default. lia.
      * rewrite get_set_neq; [|exact eqb_eq|].
        -- unfold get_default. lia.
        -- intros ->. rewrite (eqb_refl' eqb eqb_eq) in E. discriminate.
    + intro k. rewrite I. unfold count_key. rewrite keys_set by exact eqb_eq.
      intuition.
    + rewrite T. unfold count_key. rewrite total_set, len_cons. lia.
Qed.

End Counting.

Section Sorting.
Context {A : Type} (leb : A -> A -> bool).
Hypothesis leb_total : forall a b, leb a b = true \/ leb b a = true.

Lemma insert_sorted_perm x l : Permutation (insert_sorted leb x l) (x :: l).
Proof.
  induction l as [|y l IH]; simpl; [reflexivity|].
  destruct (leb x y); [reflexivity|].
  rewrite IH. apply perm_swap.
Qed.

Lemma sorted_perm l : Permutation (sorted leb l) l.
Proof.
  induction l as [|x l IH]; simpl; [reflexivity|].
  rewrite insert_sorted_perm. now constructor.
Qed.

Lemma insert_sorted_Sorted x l :
  Sorted (fun a b => leb a b = true) l ->
  Sorted (fun a b => leb a b = true) (insert_sorted leb x l).
Proof.
  induction 1 as [|y l S IH H]; simpl.
  - repeat constructor.
  - destruct (leb x y) eqn:E.
    + constructor; [now constructor|]. now constructor.
    + constructor; [exact IH|].
      assert (leb y x = true) as Y by (destruct (leb_total x y); congruence).
      destruct H as [|z l' Hz]; simpl.
      * now constructor.
      * destruct (leb x z); now constructor.
Qed.

Lemma sorted_Sorted l : Sorted (fun a b => leb a b = true) (sorted leb l).
Proof.
  induction l as [|x l IH]; simpl; [constructor|].
  now apply insert_sorted_Sorted.
Qed.

End Sorting.

(** In a sorted list of items with pairwise distinct keys, neighbours
    are strictly ordered by their keys. *)
Lemma Sorted_strict {A B} (R : A * B -> A * B -> Prop)
      (S : A * B -> A * B -> Prop) l :
  (forall a b, R a b -> fst a <> fst b -> S a b) ->
  NoDup (map fst l) -> Sorted R l -> Sorted S l.
Proof.
  intros H N So. induction So as [|a l So IH Hd]; [constructor|].
  inversion N as [|? ? Nin N']; subst.
  constructor; [now apply IH|].
  destruct Hd as [|b l' Rab]; constructor.
  apply H; [exact Rab|]. intro E. apply Nin. simpl. now left.
Qed.

Lemma total_perm {K} (d1 d2 : dict (K := K) (V := Z)) :
  Permutation d1 d2 -> total d1 = total d2.
Proof.
  unfold total. induction 1; simpl; lia.
Qed.

End DictFacts.

(** ** The breakdowns of the report *)

Module BreakdownFacts.
Import PyDict Breakdowns StatisticsCalculator.

Lemma get_keys {K V} (eqb : K -> K -> bool) (d : dict (K := K) (V := V)) k :
  (forall a b, eqb a b = true <-> a = b) ->
  (In k (keys d) <-> exists v, get eqb d k = Some v).
Proof.
  intro eqb_eq. induction d as [|[k0 v0] d IH]; simpl.
  - split; [intros []|intros (v & H); discriminate].
  - destruct (eqb k k0) eqn:E.
    + apply eqb_eq in E. subst. split; eauto.
    + rewrite <- IH. split; [|auto]. intros [H|H]; [|exact H].
      subst. rewrite (DictFacts.eqb_refl' eqb eqb_eq) in E. discriminate.
Qed.

Lemma count_pos {K} (eqb : K -> K -> bool) (ks : list K) k :
  (forall a b, eqb a b = true <-> a = b) ->
  (0 < len (filter (eqb k) ks) <-> In k ks).
Proof.
  intro eqb_eq. induction ks as [|k0 ks IH]; simpl.
  - unfold len. simpl. split; [lia|intros []].
  - destruct (eqb k k0) eqn:E.
    + apply eqb_eq in E. subst. rewrite len_cons.
      pose proof (len_nonneg (filter (eqb k0) ks)). split; [auto|lia].
    + rewrite IH. split; [auto|]. intros [H|H]; [|exact H].
      subst. rewrite (DictFacts.eqb_refl' eqb eqb_eq) in E. discriminate.
Qed.

Lemma count_results_split rs : forall a b,
  fold_left count_result rs (a, b)
  = (tally Z.eqb (map status_code rs) a, tally String.eqb (error_keys rs) b).
Proof.
  induction rs as [|r rs IH]; intros a b; [reflexivity|].
  cbn [fold_left]. unfold count_result at 2. cbn [fst snd].
  rewrite IH. cbn [map tally fold_left error_keys flat_map].
  f_equal. unfold tally. rewrite fold_left_app.
  destruct (error r) as [e|]; [|reflexivity].
  destruct (truthy_str (Some e)); reflexivity.
Qed.

Lemma status_codes_tally rs :
  fst (count_results rs) = tally Z.eqb (map status_code rs) [].
Proof. unfold count_results. now rewrite count_results_split. Qed.

Lemma errors_tally rs :
  snd (count_results rs) = tally String.eqb (error_keys rs) [].
Proof. unfold count_results. now rewrite count_results_split. Qed.

Lemma count_status rs code :
  len (filter (Z.eqb code) (map status_code rs))
  = len (filter (fun r => status_code r =? code) rs).
Proof.
  induction rs as [|r rs IH]; [reflexivity|]. simpl.
  rewrite (Z.eqb_sym code). destruct (status_code r =? code);
    rewrite ?len_cons; lia.
Qed.

(** The items of a counting dictionary, sorted: a key has a line exactly
    when it occurs, and the line shows the number of its occurrences. *)
Lemma tally_rows {K} (eqb : K -> K -> bool) (leb : K * Z -> K * Z -> bool)
      (ks : list K) k n :
  (forall a b, eqb a b = true <-> a = b) ->
  (In (k, n) (sorted leb (tally eqb ks []))
   <-> 0 < n /\ n = len (filter (eqb k) ks)).
Proof.
  intro eqb_eq.
  destruct (DictFacts.tally_spec eqb eqb_eq ks [] (NoDup_nil _))
    as (N & G & I & _).
  pose proof (DictFacts.sorted_perm leb (tally eqb ks [])) as P.
  split.
  - intro H. apply (Permutation_in _ P) in H.
    assert (In k (keys (tally eqb ks []))) as Ik.
    { apply in_map_iff. exists (k, n). auto. }
    apply (DictFacts.In_get eqb eqb_eq _ _ _ N) in H.
    specialize (G k). unfold get_default in G at 1. rewrite H in G.
    unfold get_default in G. simpl in G.
    apply I in Ik. destruct Ik as [[]|Ik].
    apply (count_pos eqb _ _ eqb_eq) in Ik. lia.
  - intros [Pn E]. apply (Permutation_in _ (Permutation_sym P)).
    apply (DictFacts.In_get eqb eqb_eq _ _ _ N).
    assert (In k (keys (tally eqb ks []))) as Ik.
    { apply I. right. apply (count_pos eqb _ _ eqb_eq). lia. }
    apply (get_keys eqb _ _ eqb_eq) in Ik. destruct Ik as (v & Hv).
    specialize (G k). unfold get_default in G at 1. rewrite Hv in G.
    unfold get_default in G. simpl in G. rewrite Hv. f_equal. lia.
Qed.

Lemma tally_rows_NoDup {K} (eqb : K -> K -> bool)
      (leb : K * Z -> K * Z -> bool) (ks : list K) :
  (forall a b, eqb a b = true <-> a = b) ->
  NoDup (map fst (sorted leb (tally eqb ks []))).
Proof.
  intro eqb_eq.
  destruct (DictFacts.tally_spec eqb eqb_eq ks [] (NoDup_nil _)) as (N & _).
  eapply Permutation_NoDup; [|exact N].
  apply Permutation_map, Permutation_sym, DictFacts.sorted_perm.
Qed.

Lemma item_leb_int_total a b :
  item_leb_int a b = true \/ item_leb_int b a = true.
Proof.
  unfold item_leb_int.
  destruct (fst a <? fst b) eqn:E1; [now left|].
  destruct (fst b <? fst a) eqn:E2; [now right|].
  assert (fst a = fst b) as -> by lia. rewrite !Z.eqb_refl. simpl.
  destruct (snd a <=? snd b) eqn:E3; [now left|]. right. lia.
Qed.

Lemma item_leb_str_total a b :
  item_leb_str a b = true \/ item_leb_str b a = true.
Proof.
  unfold item_leb_str, String.ltb.
  destruct (String.compare (fst a) (fst b)) eqn:C.
  - apply String.compare_eq_iff in C. rewrite C, String.eqb_refl. simpl.
    rewrite !orb_true_iff. destruct (snd a <=? snd b) eqn:E3; [auto|].
    right. right. lia.
  - now left.
  - right. rewrite String.compare_antisym, C. reflexivity.
Qed.

(** X1: the status-code breakdown lists the codes in strictly ascending
    order, one line per code that occurs, and the count of a line is the
    number of results with that status code. *)
Theorem status_breakdown_lines rs :
  StronglySorted (fun a b => fst a < fst b) (status_rows rs)
  /\ forall code n,
      In (code, n) (status_rows rs)
      <-> 0 < n /\ n = len (filter (fun r => status_code r =? code) rs).
Proof.
  unfold status_rows. rewrite status_codes_tally. split.
  - apply Sorted_StronglySorted; [intros a b c; lia|].
    apply (DictFacts.Sorted_strict (fun a b => item_leb_int a b = true)).
    + intros a b H N. unfold item_leb_int in H.
      apply orb_true_iff in H. destruct H as [H|H]; [lia|].
      apply andb_true_iff in H. lia.
    + apply tally_rows_NoDup, Z.eqb_eq.
    + apply DictFacts.sorted_Sorted, item_leb_int_total.
  - intros code n. rewrite tally_rows by apply Z.eqb_eq.
    now rewrite count_status.
Qed.

Lemma status_rows_total rs : total (status_rows rs) = len rs.
Proof.
  unfold status_rows.
  rewrite (DictFacts.total_perm _ _ (DictFacts.sorted_perm _ _)).
  rewrite status_codes_tally.
  destruct (DictFacts.tally_spec Z.eqb Z.eqb_eq (map status_code rs) []
              (NoDup_nil _)) as (_ & _ & _ & T).
  rewrite T. unfold total, len. simpl. now rewrite length_map.
Qed.

(** X2: every result is counted exactly once in the status-code
    breakdown, whatever its status: the counts of the printed lines sum to
    the number of results. *)
Theorem status_breakdown_total rs :
  fold_right Z.add 0 (map snd (fst (_print_breakdowns rs))) = len rs.
Proof.
  unfold _print_breakdowns. cbn [fst].
  rewrite map_map. cbn [fst snd].
  change (total (status_rows rs) = len rs).
  apply status_rows_total.
Qed.

Lemma truthy_tag e : truthy_str (Some e) = negb (String.eqb e "").
Proof. destruct e; reflexivity. Qed.

Lemma count_error_keys rs tag :
  len (filter (String.eqb tag) (error_keys rs))
  = len (filter (fun r => truthy_str (error r)
                          && match error r with
                             | Some e => String.eqb e tag
                             | None => false
                             end) rs).
Proof.
  induction rs as [|r rs IH]; [reflexivity|].
  cbn [error_keys flat_map filter]. fold (error_keys rs).
  destruct (error r) as [e|]; [|exact IH].
  destruct (truthy_str (Some e)); [|exact IH].
  cbn [app filter andb]. rewrite (String.eqb_sym tag e).
  destruct (String.eqb e tag); rewrite ?len_cons; lia.
Qed.

Lemma len_error_keys rs :
  len (error_keys rs) = len (filter (fun r => truthy_str (error r)) rs).
Proof.
  induction rs as [|r rs IH]; [reflexivity|].
  cbn [error_keys flat_map filter]. fold (error_keys rs).
  destruct (error r) as [e|]; [|exact IH].
  destruct (truthy_str (Some e)); [|exact IH].
  cbn [app]. rewrite !len_cons. lia.
Qed.

Lemma len_filter_le {A} (p q : A -> bool) l :
  (forall x, p x = true -> q x = true) ->
  len (filter p l) <= len (filter q l).
Proof.
  intro H. induction l as [|x l IH]; simpl; [reflexivity|].
  pose proof (len_nonneg (filter q l)).
  destruct (p x) eqn:P.
  - rewrite (H x P), !len_cons. lia.
  - destruct (q x); rewrite ?len_cons; lia.
Qed.

Lemma len_zero_nil {A} (l : list A) : len l = 0 -> l = [].
Proof. destruct l; [reflexivity|]. rewrite len_cons. pose proof (len_nonneg l). lia. Qed.

(** X3: the error breakdown is printed exactly when some result carries
    a non-empty error string.  Its lines are in strictly ascending order
    of the error string, one line per non-empty error string that occurs,
    with the number of results that carry it; the counts sum to the number
    of results with a non-empty error string, which is at most the number
    of failures. *)
Theorem error_breakdown_lines rs :
  (snd (_print_breakdowns rs) = None
   <-> forall r, In r rs -> truthy_str (error r) = false)
  /\ forall rows,
      snd (_print_breakdowns rs) = Some rows ->
      Sorted (fun a b => String.ltb (fst a) (fst b) = true) rows
      /\ (forall tag n,
            In (tag, n) rows
            <-> 0 < n /\ tag <> ""
                /\ n = len (filter (fun r => match error r with
                                             | Some e => String.eqb e tag
                                             | None => false
                                             end) rs))
      /\ fold_right Z.add 0 (map snd rows)
         = len (filter (fun r => truthy_str (error r)) rs)
      /\ fold_right Z.add 0 (map snd rows) <= len (failures rs).
Proof.
  unfold _print_breakdowns. cbn [snd]. unfold error_rows.
  rewrite errors_tally.
  destruct (DictFacts.tally_spec String.eqb String.eqb_eq (error_keys rs) []
              (NoDup_nil _)) as (_ & _ & _ & T).
  change (total []) with 0 in T.
  assert (fold_right Z.add 0
            (map snd (sorted item_leb_str (tally String.eqb (error_keys rs) [])))
          = len (filter (fun r => truthy_str (error r)) rs)) as Sum.
  { change (total (sorted item_leb_str (tally String.eqb (error_keys rs) []))
            = len (filter (fun r => truthy_str (error r)) rs)).
    rewrite (DictFacts.total_perm _ _ (DictFacts.sorted_perm _ _)), T.
    rewrite len_error_keys. lia. }
  split.
  - split.
    + intros H r Ir. destruct (tally String.eqb (error_keys rs) []) eqn:D;
        [|discriminate].
      change (total []) with 0 in T.
      assert (filter (fun r => truthy_str (error r)) rs = []) as F.
      { apply len_zero_nil. rewrite <- len_error_keys. lia. }
      destruct (truthy_str (error r)) eqn:Tr; [|reflexivity].
      assert (In r (filter (fun r => truthy_str (error r)) rs)) as X
          by (apply filter_In; auto).
      rewrite F in X. destruct X.
    + intro H.
      assert (error_keys rs = []) as ->; [|reflexivity].
      apply len_zero_nil. rewrite len_error_keys. clear T Sum.
      induction rs as [|r rs IH]; [reflexivity|]. simpl.
      rewrite (H r) by now left. apply IH.
      intros. apply H. now right.
  - intros rows R.
    assert (rows = sorted item_leb_str (tally String.eqb (error_keys rs) []))
      as ->.
    { destruct (tally String.eqb (error_keys rs) []); [discriminate|].
      congruence. }
    split; [|split; [|split]].
    + apply (DictFacts.Sorted_strict (fun a b => item_leb_str a b = true)).
      * intros a b H N. unfold item_leb_str in H.
        apply orb_true_iff in H. destruct H as [H|H]; [exact H|].
        apply andb_true_iff in H. destruct H as [H _].
        apply String.eqb_eq in H. contradiction.
      * apply tally_rows_NoDup, String.eqb_eq.
      * apply DictFacts.sorted_Sorted, item_leb_str_total.
    + intros tag n. rewrite tally_rows by apply String.eqb_eq.
      rewrite count_error_keys.
      destruct (String.eqb tag "") eqn:E.
      * apply String.eqb_eq in E. subst tag.
        assert (len (filter (fun r => truthy_str (error r)
                                     && match error r with
                                        | Some e => String.eqb e ""
                                        | None => false
                                        end) rs) = 0) as Z0.
        { clear. induction rs as [|r rs IH]; [reflexivity|]. simpl.
          destruct (error r) as [[|c e]|]; simpl; apply IH. }
        rewrite Z0. split; [lia|]. intros (_ & N & _). congruence.
      * apply String.eqb_neq in E.
        assert (filter (fun r => truthy_str (error r)
                                 && match error r with
                                    | Some e => String.eqb e tag
                                    | None => false
                                    end) rs
                = filter (fun r => match error r with
                                   | Some e => String.eqb e tag
                                   | None => false
                                   end) rs) as ->.
        { apply filter_ext. intro r. destruct (error r) as [e|]; [|reflexivity].
          destruct (String.eqb e tag) eqn:Et; [|apply andb_false_r].
          apply String.eqb_eq in Et. subst e. rewrite truthy_tag.
          apply String.eqb_neq in E. now rewrite E. }
        tauto.
    + exact Sum.
    + rewrite Sum. unfold failures. apply len_filter_le.
      intros r H. unfold is_failure. rewrite H. now rewrite orb_true_r.
Qed.

End BreakdownFacts.

(** ** Rates and histogram of the report *)

Module ReportFacts.
Import Breakdowns StatisticsCalculator.

Lemma counts_eq rs :
  (forall x, In x rs -> is_success x = true \/ is_failure x = true) ->
  len (successes rs) + len (failures rs) = len rs.
Proof.
  unfold successes, failures. induction rs as [|a rs IH]; intro H;
    [reflexivity|].
  simpl. rewrite len_cons. rewrite <- IH by (intros; apply H; now right).
  pose proof (StatisticsFacts.success_not_failure a) as D.
  destruct (H a (or_introl eq_refl)) as [S|F].
  - rewrite S, (D S), len_cons. lia.
  - rewrite F. destruct (is_success a) eqn:S.
    + specialize (D eq_refl). congruence.
    + rewrite len_cons. lia.
Qed.

Lemma counts_all rs :
  len (successes rs) + len (failures rs) = len rs ->
  forall x, In x rs -> is_success x = true \/ is_failure x = true.
Proof.
  intros E x I.
  destruct (is_success x) eqn:S; [now left|].
  destruct (is_failure x) eqn:F; [now right|].
  pose proof (StatisticsFacts.counts_lt x rs I S F). lia.
Qed.

(** X4: in every report no result is counted both as a success and as a
    failure, so the two counts sum to at most the number of results; they
    sum to exactly that number when, and only when, every result is a
    success or a failure. *)
Theorem counts_cover_classified_results r rs d :
  exists rep,
    print_summary (r :: rs) d = Ret (Some rep)
    /\ n_successes rep = Z.of_nat (List.length (filter is_success (r :: rs)))
    /\ n_failures rep = Z.of_nat (List.length (filter is_failure (r :: rs)))
    /\ total_reqs rep = Z.of_nat (List.length (r :: rs))
    /\ (forall x, is_success x = true -> is_failure x = true -> False)
    /\ n_successes rep + n_failures rep <= total_reqs rep
    /\ (n_successes rep + n_failures rep = total_reqs rep
        <-> forall x, In x (r :: rs) ->
                      is_success x = true \/ is_failure x = true).
Proof.
  exists (shown (r :: rs) d). split; [apply StatisticsFacts.print_summary_cons|].
  cbn [shown n_successes n_failures total_reqs].
  split; [reflexivity|]. split; [reflexivity|]. split; [reflexivity|].
  split.
  { intros x S F. rewrite (StatisticsFacts.success_not_failure x S) in F.
    discriminate F. }
  split; [apply StatisticsFacts.counts_le|].
  split; [apply counts_all|apply counts_eq].
Qed.

Lemma bar_width_div h m :
  0 < m -> 0 <= h -> bar_width h m = h * 40 / m.
Proof.
  intros Pm Ph. unfold bar_width, int_of_float.
  destruct (m >? 0) eqn:E; [|lia].
  destruct m as [|p|p]; try lia.
  unfold Qdiv, Qmult, Qinv, inject_Z. simpl.
  rewrite ?Pos.mul_1_r, ?Z.mul_1_r.
  apply Z.quot_div_nonneg; lia.
Qed.

Lemma fold_max_ge l : forall a, a <= fold_left Z.max l a.
Proof.
  induction l as [|x l IH]; intro a; simpl; [lia|].
  specialize (IH (Z.max a x)). lia.
Qed.

Lemma fold_max_In l : forall a x, In x l -> x <= fold_left Z.max l a.
Proof.
  induction l as [|y l IH]; intros a x I; simpl; [destruct I|].
  destruct I as [->|I]; [|now apply IH].
  pose proof (fold_max_ge l (Z.max a x)). lia.
Qed.

Lemma hist_max_ge hist h : In h hist -> h <= hist_max hist.
Proof.
  unfold hist_max. destruct hist as [|a l]; [intros []|]. simpl.
  intros [->|I]; [apply fold_max_ge|now apply fold_max_In].
Qed.

(** X5: for the bin counts of a histogram (none negative), every bar is
    between 0 and 40 characters wide, so it fits its 40-column field; the
    bars grow with the counts, an empty bin has no bar, and a fullest
    non-empty bin has a bar of exactly 40 characters. *)
Theorem histogram_bars_fit hist :
  (forall h, In h hist -> 0 <= h) ->
  (forall w h, In (w, h) (histogram_bars hist) ->
               0 <= w <= 40
               /\ (h = 0 -> w = 0)
               /\ (h = hist_max hist -> 0 < h -> w = 40))
  /\ (forall w1 h1 w2 h2,
         In (w1, h1) (histogram_bars hist) ->
         In (w2, h2) (histogram_bars hist) ->
         h1 <= h2 -> w1 <= w2).
Proof.
  intro N. unfold histogram_bars.
  assert (forall w h, In (w, h) (map (fun c => (bar_width c (hist_max hist), c)) hist)
                      -> In h hist /\ w = bar_width h (hist_max hist)) as Inv.
  { intros w h I. apply in_map_iff in I. destruct I as (c & E & I).
    inversion E; subst. auto. }
  destruct (Z_lt_le_dec 0 (hist_max hist)) as [Pm|Zm].
  - split.
    + intros w h I. apply Inv in I. destruct I as [I ->].
      pose proof (N h I). pose proof (hist_max_ge hist h I).
      rewrite bar_width_div by lia. split; [|split].
      * split; [apply Z.div_pos; lia|].
        apply Z.div_le_upper_bound; nia.
      * intros ->. reflexivity.
      * intros <- P. rewrite Z.mul_comm. apply Z.div_mul. lia.
    + intros w1 h1 w2 h2 I1 I2 L.
      apply Inv in I1, I2. destruct I1 as [I1 ->]. destruct I2 as [I2 ->].
      pose proof (N h1 I1). rewrite !bar_width_div by lia.
      apply Z.div_le_mono; lia.
  - assert (forall h, bar_width h (hist_max hist) = 0) as Z0.
    { intro h. unfold bar_width. destruct (hist_max hist >? 0) eqn:E; [lia|].
      reflexivity. }
    split.
    + intros w h I. apply Inv in I. destruct I as [I ->]. rewrite Z0.
      split; [lia|]. split; [reflexivity|]. intros -> P. lia.
    + intros w1 h1 w2 h2 I1 I2 _.
      apply Inv in I1, I2. destruct I1 as [_ ->]. destruct I2 as [_ ->].
      rewrite !Z0. lia.
Qed.

Lemma histogram_bars_fit_witness :
  (forall w h, In (w, h) (histogram_bars [3; 0; 7; 12; 5]) ->
               0 <= w <= 40
               /\ (h = 0 -> w = 0)
               /\ (h = hist_max [3; 0; 7; 12; 5] -> 0 < h -> w = 40))
  /\ (forall w1 h1 w2 h2,
         In (w1, h1) (histogram_bars [3; 0; 7; 12; 5]) ->
         In (w2, h2) (histogram_bars [3; 0; 7; 12; 5]) ->
         h1 <= h2 -> w1 <= w2).
Proof.
  apply (histogram_bars_fit [3; 0; 7; 12; 5]).
  simpl. intros h H. lia.
Defined.

Lemma latency_section_cases ts :
  (ts = [] /\ latency_section ts = None)
  \/ latency_section ts
     = Some (mkLatency (map (fun t => (t * 1000)%Q) ts) (len ts >=? 10)).
Proof.
  destruct ts as [|t ts]; [left; auto|right].
  unfold latency_section. cbv zeta. f_equal. f_equal.
  unfold len. now rewrite length_map.
Qed.

(** X6: the histogram is drawn exactly when at least ten results carry
    no error tag, and it then always has ten bins. *)
Theorem histogram_needs_ten_samples r rs d :
  exists rep,
    print_summary (r :: rs) d = Ret (Some rep)
    /\ (option_map histogram (latency rep) = Some true
        <-> 10 <= len (filter (fun x => is_None (error x)) (r :: rs)))
    /\ forall sec, latency rep = Some sec -> histogram sec = true ->
                   histogram_bins (latencies_ms sec) = 10.
Proof.
  exists (shown (r :: rs) d). split; [apply StatisticsFacts.print_summary_cons|].
  cbn [shown latency]. unfold _get_response_times.
  set (ok := filter (fun x => is_None (error x)) (r :: rs)).
  assert (len (map response_time ok) = len ok) as E
      by (unfold len; now rewrite length_map).
  destruct (latency_section_cases (map response_time ok)) as [[N ->]| ->].
  - rewrite N in E. unfold len in E at 1. simpl in E.
    split; [simpl; split; [discriminate|lia]|discriminate].
  - rewrite E. split.
    + simpl. split.
      * intro H. inversion H as [G]. lia.
      * intro H. f_equal. lia.
    + intros sec S H. inversion S; subst sec. cbn [histogram latencies_ms] in *.
      unfold histogram_bins, len. rewrite length_map. fold (len (map response_time ok)).
      rewrite E. lia.
Qed.

End ReportFacts.

(** ** Construction messages and the shape of the schedule *)

Module SetupFacts.
Import AdvancedLoadTester.

Ltac first_fault :=
  let H := fresh "H" in
  split;
  [ intro H; try discriminate H; repeat split; try lia; try assumption
  | intro H; try reflexivity; exfalso;
    first [lia | destruct H as (_ & _ & _ & H); congruence] ].

(** X7: construction reports the first fault found in the order
    semaphore, request count, concurrency, rate, URL.  A negative
    concurrency is reported by the semaphore, whatever the other fields;
    the tester's own message about the concurrency is given only for a
    concurrency of exactly 0 with a valid request count. *)
Theorem construction_reports_first_fault c :
  (__init__ c = Raise (ValueError "Semaphore initial value must be >= 0")
   <-> concurrent c < 0)
  /\ (__init__ c = Raise (ValueError "Number of requests must be greater than 0")
      <-> 0 <= concurrent c /\ requests c <= 0)
  /\ (__init__ c = Raise (ValueError "Concurrency must be greater than 0")
      <-> concurrent c = 0 /\ 0 < requests c)
  /\ (__init__ c = Raise (ValueError "Rate limit must be greater than 0")
      <-> 0 < concurrent c /\ 0 < requests c /\ rate c <= 0)
  /\ (__init__ c = Raise (ValueError "URL must start with http:// or https://")
      <-> 0 < concurrent c /\ 0 < requests c /\ 0 < rate c
          /\ has_scheme (url c) = false).
Proof.
  unfold __init__, Semaphore, _validate_config.
  destruct (concurrent c <? 0) eqn:E0;
    [apply Z.ltb_lt in E0|apply Z.ltb_ge in E0]; simpl.
  { repeat (split; [first_fault|]); first_fault. }
  destruct (requests c <=? 0) eqn:E1;
    [apply Z.leb_le in E1|apply Z.leb_gt in E1]; simpl.
  { repeat (split; [first_fault|]); first_fault. }
  destruct (concurrent c <=? 0) eqn:E2;
    [apply Z.leb_le in E2|apply Z.leb_gt in E2]; simpl.
  { repeat (split; [first_fault|]); first_fault. }
  destruct (rate c <=? 0) eqn:E3;
    [apply Z.leb_le in E3|apply Z.leb_gt in E3]; simpl.
  { repeat (split; [first_fault|]); first_fault. }
  destruct (has_scheme (url c)) eqn:E4; simpl;
    repeat (split; [first_fault|]); first_fault.
Qed.

(** X8: for a positive rate the delays form a staircase: they never
    decrease with the index, the first [rate] requests are not delayed,
    each further group of [rate] requests is delayed by one more second,
    and two requests with the same delay are less than [rate] apart. *)
Theorem delays_form_a_staircase c :
  rate c > 0 ->
  (forall i j, i <= j -> delay c i <= delay c j)
  /\ (forall i, 0 <= i < rate c -> delay c i = 0)
  /\ (forall i, delay c (i + rate c) = delay c i + 1)
  /\ (forall i j, delay c i = delay c j -> Z.abs (i - j) < rate c).
Proof.
  intro R. unfold delay. destruct (rate c >? 0) eqn:E; [|lia].
  split; [|split; [|split]].
  - intros i j L. apply Z.div_le_mono; lia.
  - intros i B. apply Z.div_small. lia.
  - intro i. replace (i + rate c) with (i + 1 * rate c) by lia.
    rewrite Z.div_add by lia. reflexivity.
  - intros i j H.
    pose proof (Z.div_mod i (rate c) ltac:(lia)).
    pose proof (Z.div_mod j (rate c) ltac:(lia)).
    pose proof (Z.mod_pos_bound i (rate c) ltac:(lia)).
    pose proof (Z.mod_pos_bound j (rate c) ltac:(lia)).
    rewrite H in *. lia.
Qed.

Lemma delays_form_a_staircase_witness :
  (forall i j, i <= j -> delay Demo.cfg i <= delay Demo.cfg j)
  /\ (forall i, 0 <= i < rate Demo.cfg -> delay Demo.cfg i = 0)
  /\ (forall i, delay Demo.cfg (i + rate Demo.cfg) = delay Demo.cfg i + 1)
  /\ (forall i j, delay Demo.cfg i = delay Demo.cfg j ->
                  Z.abs (i - j) < rate Demo.cfg).
Proof.
  apply (delays_form_a_staircase Demo.cfg). simpl. lia.
Defined.

End SetupFacts.

(** ** Progress of a run *)

Module ProgressFacts.
Import AdvancedLoadTester.

Lemma length_unwind code : (List.length (unwind code) <= List.length code)%nat.
Proof.
  induction code as [|[] code IH]; simpl; lia.
Qed.

(** Every move of a task consumes at least one step of its code. *)
Lemma task_step_shorter t ev t' dv :
  task_step t ev = Some (t', dv) ->
  (List.length (pc t') < List.length (pc t))%nat.
Proof.
  unfold task_step. intro H.
  destruct (pc t) as [|[] rest]; destruct ev; try discriminate;
    try (destruct (_ =? _); [|discriminate]);
    inversion H; subst; simpl; try lia;
    pose proof (length_unwind rest); lia.
Qed.

Lemma list_sum_set_nth i (t t' : Task) l :
  nth_error l i = Some t ->
  (list_sum (map (fun x => List.length (pc x)) (set_nth i t' l))
   + List.length (pc t)
   = list_sum (map (fun x => List.length (pc x)) l) + List.length (pc t'))%nat.
Proof.
  revert i. induction l as [|y l IH]; intros [|i] H; simpl in *;
    try discriminate.
  - inversion H; subst. lia.
  - specialize (IH i H). lia.
Qed.

Lemma exec_measure tr : forall s s',
  exec s tr = Some s' ->
  (List.length tr + list_sum (map (fun x => List.length (pc x)) (tasks s'))
   <= list_sum (map (fun x => List.length (pc x)) (tasks s)))%nat.
Proof.
  induction tr as [|[i ev] tr IH]; intros s s' H.
  - simpl in H. inversion H; subst. simpl. lia.
  - cbn [exec] in H.
    destruct (sys_step s (i, ev)) as [s1|] eqn:E; [|discriminate].
    specialize (IH _ _ H). unfold sys_step in E.
    destruct (nth_error (tasks s) i) as [t|] eqn:N; [|discriminate].
    destruct (task_step t ev) as [[t1 dv]|] eqn:T; [|discriminate].
    destruct (match ev with EvAcquire => value s >? 0 | _ => true end);
      [|discriminate].
    inversion E; subst s1; clear E. simpl in IH.
    pose proof (list_sum_set_nth i t t1 _ N).
    pose proof (task_step_shorter _ _ _ _ T). simpl. lia.
Qed.

Lemma length_single_request d : (List.length (single_request d) <= 5)%nat.
Proof.
  unfold single_request. destruct d as [d|]; simpl; [|lia].
  destruct (negb (d =? 0)); simpl; lia.
Qed.

Lemma create_tasks_measure c :
  (list_sum (map (fun x => List.length (pc x)) (create_tasks c))
   <= 5 * List.length (create_tasks c))%nat.
Proof.
  unfold create_tasks. induction (range (requests c)) as [|i l IH];
    simpl; [lia|].
  pose proof (length_single_request (Some (delay c i))). simpl in *. lia.
Qed.

(** X9: a run always comes to an end: no schedule has more than five
    moves per request. *)
Theorem run_is_bounded c tester tr s :
  __init__ c = Ret tester ->
  exec (initial tester) tr = Some s ->
  len tr <= 5 * requests c.
Proof.
  intros I E. pose proof (exec_measure _ _ _ E) as M.
  apply ConfigFacts.init_returns in I. destruct I as [V ->].
  simpl in M. pose proof (create_tasks_measure c) as B.
  rewrite RunFacts.length_create_tasks in B.
  unfold invalid in V. unfold len. lia.
Qed.

Lemma run_is_bounded_witness :
  len Demo.failing_schedule <= 5 * requests Demo.cfg.
Proof.
  apply (run_is_bounded Demo.cfg Demo.tester Demo.failing_schedule Demo.failed).
  - reflexivity.
  - reflexivity.
Defined.

(** A task inside the [async with] has a move of its own code that
    needs no permit. *)
Lemma holder_moves t :
  task_shape t -> holds t = true ->
  exists ev t' dv,
    task_step t ev = Some (t', dv)
    /\ ev <> EvAcquire /\ (forall e, ev <> EvThrow e).
Proof.
  intros S H. destruct S; simpl in H; try discriminate.
  - exists (EvSleep d). unfold task_step. simpl. rewrite Z.eqb_refl.
    eexists. eexists. repeat split; try reflexivity; discriminate.
  - exists EvTimer. eexists. eexists.
    repeat split; try reflexivity; discriminate.
  - exists (EvHttp (Responded 200 0) 0). eexists. eexists.
    repeat split; try reflexivity; discriminate.
  - exists EvRelease. eexists. eexists.
    repeat split; try reflexivity; discriminate.
Qed.

Lemma sys_step_free s i t ev t' dv :
  nth_error (tasks s) i = Some t ->
  task_step t ev = Some (t', dv) ->
  ev <> EvAcquire ->
  sys_step s (i, ev) = Some (mkSystem (value s + dv) (set_nth i t' (tasks s))).
Proof.
  intros N T A. unfold sys_step. rewrite N, T.
  destruct ev; try reflexivity. contradiction.
Qed.

Lemma some_holder l :
  0 < len (filter holds l) -> exists t, In t l /\ holds t = true.
Proof.
  destruct (filter holds l) as [|t f] eqn:F.
  - unfold len. simpl. lia.
  - intros _. exists t. apply filter_In. rewrite F. now left.
Qed.

Lemma no_holder l :
  (forall t, In t l -> holds t = false) -> filter holds l = [].
Proof.
  induction l as [|t l IH]; intro H; [reflexivity|]. simpl.
  rewrite (H t) by now left. apply IH. intros. apply H. now right.
Qed.

(** X10: a run never stalls, under every interleaving.  A request inside
    the [async with] can always make the next move of its own code.  A
    request that waits for a permit is granted one whenever fewer than
    [concurrent] permits are held, and the number of holders then grows by
    one.  So as long as some request is not over, some request can move
    without any cancellation; and when no request can move any more, all
    requests are over and all the permits are back. *)
Theorem run_never_stalls c tester tr s :
  __init__ c = Ret tester ->
  exec (initial tester) tr = Some s ->
  (forall i t,
      nth_error (tasks s) i = Some t -> finished t = false ->
      (holds t = true ->
       exists ev s',
         sys_step s (i, ev) = Some s'
         /\ ev <> EvAcquire /\ (forall e, ev <> EvThrow e))
      /\ (holds t = false -> holders s < concurrent c ->
          exists s',
            sys_step s (i, EvAcquire) = Some s'
            /\ holders s' = holders s + 1
            /\ value s' = value s - 1))
  /\ ((exists t, In t (tasks s) /\ finished t = false) ->
      exists i ev s',
        sys_step s (i, ev) = Some s' /\ (forall e, ev <> EvThrow e))
  /\ ((forall i ev, (forall e, ev <> EvThrow e) ->
                    sys_step s (i, ev) = None) ->
      forallb finished (tasks s) = true
      /\ holders s = 0 /\ value s = concurrent c).
Proof.
  intros I E.
  pose proof (RunFacts.exec_inv _ _ _ _ (RunFacts.initial_inv _ _ I) E)
    as (F & V & P).
  apply ConfigFacts.init_returns in I. destruct I as [Val _].
  rewrite Forall_forall in F.
  assert (forall i t, nth_error (tasks s) i = Some t -> holds t = true ->
            exists ev s',
              sys_step s (i, ev) = Some s'
              /\ ev <> EvAcquire /\ (forall e, ev <> EvThrow e)) as Hold.
  { intros i h N Hh.
    destruct (holder_moves h (F h (nth_error_In _ _ N)) Hh)
      as (ev & t' & dv & T & A & NT).
    exists ev. eexists. split; [eapply sys_step_free; eauto|auto]. }
  assert (forall i t, nth_error (tasks s) i = Some t ->
            finished t = false -> holds t = false ->
            holders s < concurrent c ->
            exists s',
              sys_step s (i, EvAcquire) = Some s'
              /\ holders s' = holders s + 1
              /\ value s' = value s - 1) as Wait.
  { intros i t N U Ht Free.
    pose proof (F t (nth_error_In _ _ N)) as S.
    destruct S; simpl in Ht, U; try discriminate.
    unfold sys_step. rewrite N. unfold task_step. cbn [pc].
    rewrite RunFacts.single_request_unfold. cbn.
    destruct (value s >? 0) eqn:G; [|lia].
    eexists. split; [reflexivity|]. cbn. split; [|lia].
    unfold holders. cbn. rewrite (RunFacts.holders_set_nth i _ _ _ N).
    cbn. lia. }
  assert ((exists t, In t (tasks s) /\ finished t = false) ->
          exists i ev s',
            sys_step s (i, ev) = Some s' /\ (forall e, ev <> EvThrow e))
    as Live.
  { intros (t & It & U). destruct (In_nth_error _ _ It) as (i & N).
    destruct (holds t) eqn:Ht.
    - destruct (Hold i t N Ht) as (ev & s' & St & _ & NT). eauto.
    - destruct (Z_lt_le_dec (holders s) (concurrent c)) as [Free|Full].
      + destruct (Wait i t N U Ht Free) as (s' & St & _).
        exists i, EvAcquire, s'. split; [exact St|]. discriminate.
      + assert (0 < len (filter holds (tasks s))) as Ph.
        { unfold holders in Full. unfold invalid in Val. lia. }
        destruct (ProgressFacts.some_holder _ Ph) as (h & Ih & Hh).
        destruct (In_nth_error _ _ Ih) as (j & Nj).
        destruct (Hold j h Nj Hh) as (ev & s' & St & _ & NT). eauto. }
  split; [|split; [exact Live|]].
  - intros i t N U. split; [now apply Hold|now apply Wait].
  - intro Stuck.
    assert (forall t, In t (tasks s) -> finished t = true) as Fin.
    { intros t It. destruct (finished t) eqn:U; [reflexivity|].
      destruct Live as (i & ev & s' & St & NT); [eauto|].
      rewrite (Stuck i ev NT) in St. discriminate. }
    split; [now apply forallb_forall|].
    assert (holders s = 0) as H0.
    { unfold holders. rewrite no_holder; [reflexivity|].
      intros t It. pose proof (F t It) as S. specialize (Fin t It).
      destruct S; simpl in *; try reflexivity; discriminate. }
    split; [exact H0|lia].
Qed.

Lemma run_never_stalls_witness :
  (forall i t,
      nth_error (tasks Demo.busy) i = Some t -> finished t = false ->
      (holds t = true ->
       exists ev s',
         sys_step Demo.busy (i, ev) = Some s'
         /\ ev <> EvAcquire /\ (forall e, ev <> EvThrow e))
      /\ (holds t = false -> holders Demo.busy < concurrent Demo.cfg ->
          exists s',
            sys_step Demo.busy (i, EvAcquire) = Some s'
            /\ holders s' = holders Demo.busy + 1
            /\ value s' = value Demo.busy - 1))
  /\ ((exists t, In t (tasks Demo.busy) /\ finished t = false) ->
      exists i ev s',
        sys_step Demo.busy (i, ev) = Some s'
        /\ (forall e, ev <> EvThrow e))
  /\ ((forall i ev, (forall e, ev <> EvThrow e) ->
                    sys_step Demo.busy (i, ev) = None) ->
      forallb finished (tasks Demo.busy) = true
      /\ holders Demo.busy = 0 /\ value Demo.busy = concurrent Demo.cfg).
Proof.
  apply (run_never_stalls Demo.cfg Demo.tester Demo.busy_schedule Demo.busy).
  - reflexivity.
  - reflexivity.
Defined.

End ProgressFacts.

(** ** The gathering with its progress bar *)

Module GatheringFacts.
Import AdvancedLoadTester Gathering.

Lemma collect_one_escape acc o acc' e :
  collect_one acc o = (acc', Some e) -> isa_Exception e = false.
Proof.
  destruct o as [[r|]|e0]; simpl; try discriminate.
  destruct (isa_Exception e0) eqn:X; [discriminate|]. congruence.
Qed.

Lemma collect_escape os : forall acc rs e,
  collect acc os = (rs, Some e) -> isa_Exception e = false.
Proof.
  induction os as [|o os IH]; intros acc rs e C; [discriminate|].
  cbn [collect] in C.
  destruct (collect_one acc o) as [acc' [x|]] eqn:O.
  - inversion C; subst. eapply collect_one_escape; eauto.
  - eapply IH; eauto.
Qed.

Lemma gather_loop_quiet ts order : forall k acc os,
  as_completed ts order = Some os ->
  gather_loop (fun _ => None) k ts acc order = Some (collect acc os).
Proof.
  induction order as [|i order IH]; intros k acc os A; simpl in A.
  - inversion A; subst. reflexivity.
  - destruct (nth_error ts i) as [t|] eqn:N; [|discriminate].
    destruct (awaited t) as [o|] eqn:W; [|discriminate].
    destruct (as_completed ts order) as [os'|] eqn:A'; [|discriminate].
    inversion A; subst os; clear A.
    cbn [gather_loop collect]. rewrite N, W.
    destruct (collect_one acc o) as [acc' [x|]]; [reflexivity|].
    now apply IH.
Qed.

(** X11: progress reporting is a side channel: with a progress bar that
    does not raise, the whole gathering of [run_test] leaves exactly the
    results of the collection loop, interrupted or not. *)
Theorem quiet_bar_changes_nothing tester s order out :
  gather s order = Some out ->
  run_test_gather quiet tester s order = Some out.
Proof.
  unfold gather, run_test_gather, gather_try. simpl.
  destruct (as_completed (tasks s) order) as [os|] eqn:A; [|discriminate].
  intro G. inversion G; subst out; clear G.
  rewrite (gather_loop_quiet _ _ 0%nat [] os A).
  destruct (collect [] os) as [rs [e|]] eqn:C; [|reflexivity].
  now rewrite (collect_escape _ _ _ _ C).
Qed.

Lemma quiet_bar_changes_nothing_witness :
  run_test_gather quiet Demo.tester Demo.failed [0; 2; 1]%nat
  = Some ([mkTestResult (-1) 30 0 (Some "TimeoutError");
           mkTestResult (-1) 0 0 (Some "TaskError: RuntimeError");
           mkTestResult (-1) (1 # 100) 0
             (Some "ClientError: ClientConnectorError")], None).
Proof.
  apply (quiet_bar_changes_nothing Demo.tester Demo.failed [0; 2; 1]%nat).
  reflexivity.
Defined.






Lemma complete_gather ts order :
  Forall task_shape ts ->
  forallb finished ts = true ->
  Permutation order (seq 0 (List.length ts)) ->
  (forall t e, In t ts -> result t = Some (Raise e) ->
               isa_Exception e = true) ->
  exists os rs,
    as_completed ts order = Some os
    /\ collect [] os = (rs, None)
    /\ List.length rs = List.length ts.
Proof.
  intros F Fin P H.
  destruct (CollectFacts.completion_order ts order P) as (done & M & Pd).
  assert (Forall (fun t => finished t = true /\ task_shape t) done) as Fd.
  { apply Forall_forall. intros t It.
    apply (Permutation_in _ Pd) in It. split.
    - rewrite forallb_forall in Fin. now apply Fin.
    - rewrite Forall_forall in F. now apply F. }
  destruct (CollectFacts.as_completed_all _ _ _ M Fd) as (os & A & W).
  destruct (CollectFacts.collect_all os []) as (rs & C & Y).
  - intros e Ie.
    destruct (CollectFacts.Forall2_In_r _ _ _ _ W Ie) as (t & It & Wt).
    apply (H t e); [now apply (Permutation_in _ Pd)|].
    now apply CollectFacts.awaited_raise.
  - intros o Io.
    destruct (CollectFacts.Forall2_In_r _ _ _ _ W Io) as (t & _ & Wt).
    eapply CollectFacts.awaited_value; eauto.
  - exists os, rs. split; [exact A|]. split; [exact C|].
    rewrite <- (Forall2_length Y), <- (Forall2_length W).
    now apply Permutation_length.
Qed.




(** A task that is over stays as it is, whatever the rest of the run
    does: this is what lets one state of the tasks stand for the whole
    gathering. *)
Lemma finished_task_stays tr : forall s s' i t,
  exec s tr = Some s' ->
  nth_error (tasks s) i = Some t ->
  finished t = true ->
  nth_error (tasks s') i = Some t.
Proof.
  induction tr as [|[j ev] tr IH]; intros s s' i t E N Fin.
  - simpl in E. inversion E; subst. exact N.
  - cbn [exec] in E.
    destruct (sys_step s (j, ev)) as [s1|] eqn:St; [|discriminate].
    apply (IH s1 s' i t E); [|exact Fin].
    unfold sys_step in St.
    destruct (nth_error (tasks s) j) as [tj|] eqn:Nj; [|discriminate].
    destruct (task_step tj ev) as [[t1 dv]|] eqn:T; [|discriminate].
    destruct (match ev with EvAcquire => value s >? 0 | _ => true end);
      [|discriminate].
    inversion St; subst s1; clear St. simpl.
    destruct (Nat.eq_dec j i) as [->|D].
    + rewrite N in Nj. inversion Nj; subst tj.
      unfold task_step in T. unfold finished in Fin.
      destruct (pc t); discriminate.
    + now rewrite RunFacts.nth_error_set_nth_neq.
Qed.


End GatheringFacts.

(** ** Command line and prompts *)

Module CommandLineFacts.
Import PyDict CommandLine AdvancedLoadTester.

Lemma split_colon_app key value :
  split_colon key = None ->
  split_colon (key ++ String ":" value) = Some (key, value).
Proof.
  induction key as [|c key IH]; simpl; [reflexivity|].
  destruct (Ascii.eqb c ":"); [discriminate|].
  destruct (split_colon key) as [[k v]|]; [discriminate|].
  intros _. now rewrite IH.
Qed.

Lemma split_colon_inv h : forall key value,
  split_colon h = Some (key, value) ->
  h = (key ++ String ":" value)%string /\ split_colon key = None.
Proof.
  induction h as [|c h IH]; intros key value H; simpl in H; [discriminate|].
  destruct (Ascii.eqb c ":") eqn:E.
  - apply Ascii.eqb_eq in E. subst c. inversion H; subst. auto.
  - destruct (split_colon h) as [[k v]|] eqn:S; [|discriminate].
    inversion H; subst. destruct (IH k value eq_refl) as [-> N].
    simpl. rewrite E, N. auto.
Qed.

Lemma split_colon_none h :
  split_colon h = None <-> ~ In ":"%char (list_ascii_of_string h).
Proof.
  induction h as [|c h IH]; simpl; [tauto|].
  destruct (Ascii.eqb c ":") eqn:E.
  - apply Ascii.eqb_eq in E. subst c. split; [discriminate|]. tauto.
  - apply Ascii.eqb_neq in E.
    destruct (split_colon h) as [[k v]|].
    + split; [discriminate|]. intro H. exfalso. apply H. right.
      destruct (in_dec Ascii.ascii_dec ":"%char (list_ascii_of_string h))
        as [I|I]; [exact I|]. apply IH in I. discriminate.
    + split; [|reflexivity]. intros _ [H|H]; [congruence|].
      now apply (proj1 IH).
Qed.

(** X15: a header option is cut at its first colon: the name is what
    comes before it and has no colon, the value is all that comes after
    it, colons included, and name, colon and value make up the option
    again; an option without a colon yields nothing. *)
Theorem header_is_cut_at_first_colon h :
  (forall key value,
      split_colon h = Some (key, value)
      <-> h = (key ++ String ":" value)%string
          /\ ~ In ":"%char (list_ascii_of_string key))
  /\ (split_colon h = None <-> ~ In ":"%char (list_ascii_of_string h)).
Proof.
  split; [|apply split_colon_none].
  intros key value. split.
  - intro H. apply split_colon_inv in H. destruct H as [E N].
    split; [exact E|]. now apply split_colon_none.
  - intros [-> N]. apply split_colon_app. now apply split_colon_none.
Qed.

Lemma find_app {A} (p : A -> bool) l1 l2 :
  find p (l1 ++ l2)
  = match find p l1 with Some x => Some x | None => find p l2 end.
Proof.
  induction l1 as [|x l1 IH]; simpl; [reflexivity|].
  destruct (p x); auto.
Qed.

Section Headers.
Variable strip : string -> string.

Lemma fold_add_header hs : forall d,
  fold_left (add_header strip) hs d
  = fold_left (fun d kv => set String.eqb d (fst kv) (snd kv))
              (parsed_headers strip hs) d.
Proof.
  induction hs as [|h hs IH]; intro d; [reflexivity|].
  cbn [fold_left parsed_headers flat_map]. fold (parsed_headers strip hs).
  rewrite fold_left_app, IH. unfold add_header.
  destruct (split_colon h) as [[k v]|]; reflexivity.
Qed.

Lemma get_fold_set kvs : forall (d : dict (K := string) (V := string)) name,
  get String.eqb
      (fold_left (fun d kv => set String.eqb d (fst kv) (snd kv)) kvs d) name
  = match find (fun kv => String.eqb name (fst kv)) (rev kvs) with
    | Some kv => Some (snd kv)
    | None => get String.eqb d name
    end.
Proof.
  induction kvs as [|[k v] kvs IH]; intros d name; [reflexivity|].
  cbn [fold_left rev fst snd]. rewrite IH, find_app.
  destruct (find (fun kv => String.eqb name (fst kv)) (rev kvs));
    [reflexivity|].
  cbn [find fst snd]. destruct (String.eqb name k) eqn:E.
  - apply String.eqb_eq in E. subst.
    apply DictFacts.get_set_eq, String.eqb_eq.
  - apply DictFacts.get_set_neq; [apply String.eqb_eq|].
    apply String.eqb_neq in E. congruence.
Qed.

(** X16: among the header options the last one given for a name wins:
    the value sent for a name is that of the last option with that name,
    and a name that no option gives keeps its default (only "User-Agent"
    has one); options without a colon are ignored. *)
Theorem last_header_wins hs name :
  get String.eqb (process_headers strip (Some hs)) name
  = match find (fun kv => String.eqb name (fst kv))
               (rev (parsed_headers strip hs)) with
    | Some kv => Some (snd kv)
    | None => if String.eqb name "User-Agent"
              then Some default_user_agent else None
    end.
Proof.
  unfold process_headers. rewrite fold_add_header, get_fold_set.
  reflexivity.
Qed.

End Headers.

Lemma lower_app a b : lower (a ++ b) = (lower a ++ lower b)%string.
Proof.
  induction a as [|c a IH]; simpl; [reflexivity|]. now rewrite IH.
Qed.

Lemma prefix_append p s : String.prefix p (p ++ s) = true.
Proof. apply ConfigFacts.prefix_app. eauto. Qed.

Lemma contains_prefix x s : String.prefix x s = true -> contains x s = true.
Proof.
  intro H. destruct s; unfold contains; fold contains; now rewrite H.
Qed.

Lemma contains_app x pre post : contains x (pre ++ x ++ post) = true.
Proof.
  induction pre as [|c pre IH].
  - change (contains x (x ++ post) = true).
    apply contains_prefix. apply prefix_append.
  - cbn [append contains]. rewrite IH. apply orb_true_r.
Qed.

(** X17: the URL prompt of the interactive mode is laxer than the
    constructor: it accepts every URL that the constructor accepts, and
    it also accepts a scheme written in capitals, which the constructor
    then rejects with its URL message although every prompt was passed. *)
Theorem prompt_accepts_what_constructor_rejects :
  (forall url, has_scheme url = true -> url_prompt_accepts url = true)
  /\ forall rest meth n conc r,
      0 < n -> 0 < conc -> 0 < r ->
      url_prompt_accepts ("HTTP://" ++ rest) = true
      /\ __init__ (mkConfig ("HTTP://" ++ rest) meth n conc r)
         = Raise (ValueError "URL must start with http:// or https://").
Proof.
  split.
  - intros url H. unfold url_prompt_accepts.
    apply ConfigFacts.has_scheme_spec in H.
    apply ConfigFacts.has_scheme_spec.
    destruct H as (rest & [->| ->]); exists (lower rest);
      rewrite lower_app; [left|right]; reflexivity.
  - intros rest meth n conc r Pn Pc Pr. split.
    + unfold url_prompt_accepts. apply ConfigFacts.has_scheme_spec.
      exists (lower rest). left. now rewrite lower_app.
    + unfold __init__, Semaphore, _validate_config. simpl.
      destruct (conc <? 0) eqn:E0; [lia|]. simpl.
      destruct (n <=? 0) eqn:E1; [lia|].
      destruct (conc <=? 0) eqn:E2; [lia|].
      destruct (r <=? 0) eqn:E3; [lia|]. reflexivity.
Qed.

Lemma prompt_accepts_what_constructor_rejects_witness :
  url_prompt_accepts "HTTP://localhost:8080/api" = true
  /\ __init__ (mkConfig "HTTP://localhost:8080/api" "GET" 100 10 10)
     = Raise (ValueError "URL must start with http:// or https://").
Proof.
  apply (proj2 prompt_accepts_what_constructor_rejects
               "localhost:8080/api" "GET" 100 10 10); lia.
Defined.

(** X18: the safety check for non-local URLs looks for its markers
    anywhere in the URL: every URL that contains one of them, be it in the
    path or in the query, passes as local, so no warning is shown and no
    confirmation is asked. *)
Theorem marker_anywhere_passes_as_local pre marker post :
  In marker local_markers ->
  looks_local (pre ++ marker ++ post) = true.
Proof.
  intro I. unfold looks_local. apply existsb_exists. exists marker.
  split; [exact I|].
  rewrite !lower_app.
  assert (lower marker = marker) as ->.
  { unfold local_markers in I. simpl in I.
    repeat (destruct I as [<-|I]; [reflexivity|]). destruct I. }
  apply contains_app.
Qed.

Lemma marker_anywhere_passes_as_local_witness :
  looks_local ("https://example.com/v" ++ "10." ++ "2/status") = true.
Proof.
  apply (marker_anywhere_passes_as_local "https://example.com/v" "10."
                                         "2/status").
  simpl. auto.
Defined.

End CommandLineFacts.

(** ** From the run to the report *)

Module EndToEndFacts.
Import AdvancedLoadTester StatisticsCalculator Breakdowns.

Lemma gathered_size rs exc s order r :
  Forall task_shape (tasks s) ->
  gather s order = Some (rs, exc) ->
  In r rs -> 0 <= response_size_bytes r.
Proof.
  intros F G Ir. unfold gather in G.
  destruct (as_completed (tasks s) order) as [os|] eqn:A; [|discriminate].
  inversion G as [C]; clear G.
  destruct (CollectFacts.collect_origin _ _ _ _ _ C Ir) as [[]|(o & Io & Y)].
  destruct (CollectFacts.as_completed_origin _ _ _ _ A Io) as (t & It & W).
  rewrite Forall_forall in F. specialize (F t It).
  destruct Y as [->|(e & -> & _ & ->)]; [|simpl; lia].
  assert (result t = Some (Ret r)) as R.
  { unfold awaited in W. destruct (result t) as [[r0|e0]|]; congruence. }
  destruct F; simpl in R; try discriminate; inversion R; subst;
    match goal with
    | H : task_outcome _ |- _ =>
        destruct H as [(tr0 & el & X)|(e & X)]; [|discriminate X]
    end;
    symmetry in X; apply CollectFacts.attempt_result in X;
    (destruct X as [(status & n & ->)|(_ & -> & _)]; simpl; lia).
Qed.

Lemma fold_add_nonneg l : forall a,
  0 <= a -> (forall x, In x l -> 0 <= x) -> 0 <= fold_left Z.add l a.
Proof.
  induction l as [|x l IH]; intros a Pa H; simpl; [exact Pa|].
  apply IH.
  - specialize (H x (or_introl eq_refl)). lia.
  - intros. apply H. now right.
Qed.

Lemma total_data_nonneg rs :
  (forall r, In r rs -> 0 <= response_size_bytes r) -> 0 <= total_data rs.
Proof.
  intro H. unfold total_data. apply fold_add_nonneg; [lia|].
  intros x I. apply in_map_iff in I. destruct I as (r & <- & I). now apply H.
Qed.

Lemma Qdiv_nonneg a b : (0 <= a)%Q -> (0 < b)%Q -> (0 <= a / b)%Q.
Proof.
  intros A B. apply Qle_shift_div_l; [exact B|]. lra.
Qed.

(** X19: whatever a run gathers, even when it is interrupted, can be
    reported: for every duration the report is produced without error,
    and its amount of data, its request rate and its throughput are never
    negative. *)
Theorem gathered_results_can_be_reported c tester tr s order r rs exc d :
  __init__ c = Ret tester ->
  exec (initial tester) tr = Some s ->
  gather s order = Some (r :: rs, exc) ->
  exists rep,
    print_summary (r :: rs) d = Ret (Some rep)
    /\ total_reqs rep = len (r :: rs)
    /\ 0 <= data_bytes rep
    /\ (0 <= actual_rps rep)%Q
    /\ (0 <= throughput_mbps rep)%Q.
Proof.
  intros I E G.
  pose proof (RunFacts.exec_inv _ _ _ _ (RunFacts.initial_inv _ _ I) E)
    as (F & _ & _).
  exists (shown (r :: rs) d).
  split; [apply StatisticsFacts.print_summary_cons|].
  split; [reflexivity|].
  assert (0 <= total_data (r :: rs)) as D.
  { apply total_data_nonneg. intros x Ix. eapply gathered_size; eauto. }
  split; [exact D|].
  cbn [shown actual_rps throughput_mbps].
  destruct (Qgtb d 0) eqn:P; [|split; apply Qle_refl].
  apply Qgtb_true in P. split.
  - apply Qdiv_nonneg; [|exact P].
    rewrite <- (Zle_Qle 0). apply len_nonneg.
  - apply Qdiv_nonneg; [|lra].
    rewrite <- (Zle_Qle 0). lia.
Qed.

Lemma gathered_results_can_be_reported_witness :
  exists rep,
    print_summary
      [mkTestResult (-1) 30 0 (Some "TimeoutError");
       mkTestResult (-1) 0 0 (Some "TaskError: RuntimeError");
       mkTestResult (-1) (1 # 100) 0
         (Some "ClientError: ClientConnectorError")] 31%Q
    = Ret (Some rep)
    /\ total_reqs rep
       = len [mkTestResult (-1) 30 0 (Some "TimeoutError");
              mkTestResult (-1) 0 0 (Some "TaskError: RuntimeError");
              mkTestResult (-1) (1 # 100) 0
                (Some "ClientError: ClientConnectorError")]
    /\ 0 <= data_bytes rep
    /\ (0 <= actual_rps rep)%Q
    /\ (0 <= throughput_mbps rep)%Q.
Proof.
  apply (gathered_results_can_be_reported
           Demo.cfg Demo.tester Demo.failing_schedule Demo.failed
           [0; 2; 1]%nat _ _ None 31%Q).
  - reflexivity.
  - reflexivity.
  - reflexivity.
Defined.

(** X20: the report of a run that was gathered whole accounts for every
    configured request: it shows [N] requests sent, its success and
    failure counts sum to at most [N], and the counts of its status-code
    breakdown sum to exactly [N]. *)
Theorem report_accounts_for_every_request c tester tr s order d :
  __init__ c = Ret tester ->
  exec (initial tester) tr = Some s ->
  forallb finished (tasks s) = true ->
  Permutation order (seq 0 (List.length (tasks s))) ->
  (forall t e, In t (tasks s) -> result t = Some (Raise e) ->
               isa_Exception e = true) ->
  exists rs rep,
    gather s order = Some (rs, None)
    /\ print_summary rs d = Ret (Some rep)
    /\ total_reqs rep = requests c
    /\ n_successes rep + n_failures rep <= requests c
    /\ fold_right Z.add 0 (map snd (fst (_print_breakdowns rs)))
       = requests c.
Proof.
  intros I E Fin P H.
  pose proof (RunFacts.exec_inv _ _ _ _ (RunFacts.initial_inv _ _ I) E)
    as (F & _ & _).
  pose proof (RunFacts.exec_length _ _ _ E) as L.
  apply ConfigFacts.init_returns in I. destruct I as [V ->].
  simpl in L. rewrite RunFacts.length_create_tasks in L.
  destruct (GatheringFacts.complete_gather _ _ F Fin P H)
    as (os & rs & A & C & L0).
  assert (len rs = requests c) as N.
  { unfold len. unfold invalid in V. lia. }
  destruct rs as [|r rs].
  { unfold len in N. simpl in N. unfold invalid in V. lia. }
  exists (r :: rs), (shown (r :: rs) d).
  split; [unfold gather; now rewrite A, C|].
  split; [apply StatisticsFacts.print_summary_cons|].
  split; [exact N|].
  split.
  - cbn [shown n_successes n_failures]. rewrite <- N.
    apply StatisticsFacts.counts_le.
  - rewrite <- N. unfold _print_breakdowns. cbn [fst].
    rewrite map_map. cbn [fst snd].
    change (PyDict.total (status_rows (r :: rs)) = len (r :: rs)).
    apply BreakdownFacts.status_rows_total.
Qed.

Lemma report_accounts_for_every_request_witness :
  exists rs rep,
    gather Demo.failed [0; 2; 1]%nat = Some (rs, None)
    /\ print_summary rs 31%Q = Ret (Some rep)
    /\ total_reqs rep = requests Demo.cfg
    /\ n_successes rep + n_failures rep <= requests Demo.cfg
    /\ fold_right Z.add 0 (map snd (fst (_print_breakdowns rs)))
       = requests Demo.cfg.
Proof.
  apply (report_accounts_for_every_request
           Demo.cfg Demo.tester Demo.failing_schedule Demo.failed
           [0; 2; 1]%nat 31%Q).
  - reflexivity.
  - reflexivity.
  - reflexivity.
  - exact CollectFacts.demo_order.
  - simpl. intros t e [<-|[<-|[<-|[]]]] R; simpl in R;
      try discriminate R. inversion R. reflexivity.
Defined.

End EndToEndFacts.

(** ** Further scenarios *)

Module MoreScenarios.
Import AdvancedLoadTester Breakdowns CommandLine Gathering.

(** The two breakdowns of a mixed result list; the empty error string of
    the last result is not counted as an error. *)
Example mixed_breakdowns :
  _print_breakdowns
    [mkTestResult 404 1 3 None; mkTestResult 200 1 3 None;
     mkTestResult (-1) 1 0 (Some "TimeoutError");
     mkTestResult 200 1 3 None;
     mkTestResult (-1) 1 0 (Some "ClientError: ClientOSError");
     mkTestResult (-1) 1 0 (Some "TimeoutError");
     mkTestResult 301 1 0 (Some "")]
  = ([(RED, "Network Error", 3); (GREEN, "200", 2); (YELLOW, "301", 1);
      (RED, "404", 1)],
     Some [("ClientError: ClientOSError", 1); ("TimeoutError", 2)]).
Proof. reflexivity. Qed.

(** Without any error string the error section is not printed. *)
Example no_error_section :
  snd (_print_breakdowns [mkTestResult 500 1 3 None]) = None.
Proof. reflexivity. Qed.

Example bars_of_five_bins :
  histogram_bars [3; 0; 7; 12; 5]
  = [(10, 3); (0, 0); (23, 7); (40, 12); (16, 5)].
Proof. reflexivity. Qed.

(** Header options: the second "Accept" replaces the first in place, the
    option without a colon is dropped, the value keeps its colons, and the
    default user agent can be replaced. *)
Example headers_from_options :
  process_headers (fun s => s)
    (Some ["Accept:text/html"; "bogus"; "X-Trace:1:2"; "Accept:json";
           "User-Agent:probe"])
  = [("User-Agent", "probe"); ("Accept", "json"); ("X-Trace", "1:2")].
Proof. reflexivity. Qed.

Example markers :
  looks_local "https://example.com/v10.2" = true
  /\ looks_local "http://LOCALHOST:8080/" = true
  /\ looks_local "https://example.com/" = false.
Proof. repeat split. Qed.

(** The bar fails at its second update: the results are collected again,
    in the order of creation of the tasks. *)
Example bar_fails_at_second_update :
  run_test_gather
    (mkBar None
       (fun k => if Nat.eqb k 1 then Some Demo.RuntimeError else None) None)
    Demo.tester Demo.failed [0; 2; 1]%nat
  = Some ([mkTestResult (-1) 30 0 (Some "TimeoutError");
           mkTestResult (-1) (1 # 100) 0
             (Some "ClientError: ClientConnectorError");
           mkTestResult (-1) 0 0 (Some "TaskCollectionError")], None).
Proof. reflexivity. Qed.

(** An interruption while the bar is closed is not caught: the results of
    the loop stay as they are. *)
Example interrupted_at_close :
  run_test_gather (mkBar None (fun _ => None) (Some CancelledError))
    Demo.tester Demo.failed [0; 2; 1]%nat
  = Some ([mkTestResult (-1) 30 0 (Some "TimeoutError");
           mkTestResult (-1) 0 0 (Some "TaskError: RuntimeError");
           mkTestResult (-1) (1 # 100) 0
             (Some "ClientError: ClientConnectorError")],
          Some CancelledError).
Proof. reflexivity. Qed.

End MoreScenarios.

(** ** The order of the moves of a request *)

Module HistoryFacts.
Import AdvancedLoadTester History StatisticsCalculator Gathering.

Lemma events_of_app i tr1 tr2 :
  events_of i (tr1 ++ tr2) = (events_of i tr1 ++ events_of i tr2)%list.
Proof. unfold events_of. now rewrite filter_app, map_app. Qed.

Lemma events_of_other i j ev : j <> i -> events_of i [(j, ev)] = [].
Proof.
  intro N. unfold events_of. simpl.
  destruct (Nat.eqb j i) eqn:E; [apply Nat.eqb_eq in E; contradiction|].
  reflexivity.
Qed.

Lemma events_of_same i ev : events_of i [(i, ev)] = [ev].
Proof. unfold events_of. simpl. now rewrite Nat.eqb_refl. Qed.


(** A move of a task extends its history as its code prescribes. *)
Lemma task_step_history t evs ev t' dv :
  task_shape t -> history_ok t evs ->
  task_step t ev = Some (t', dv) ->
  history_ok t' (evs ++ [ev]).
Proof.
  intros S [Hp Hr] T. unfold history_ok.
  destruct S; unfold task_step in T; simpl pc in T;
    rewrite ?RunFacts.single_request_unfold in T, Hp; cbn in T, Hp, Hr;
    destruct ev; try discriminate;
    try (destruct (_ =? _) eqn:E; [|discriminate]);
    inversion T; subst; clear T; cbn.
  - (* a new task is granted its permit *)
    destruct (d =? 0) eqn:E; cbn; unfold before_timer; rewrite ?E; auto.
  - (* a new task is cancelled while it waits *)
    split; [exact I|]. right. exists e. simpl. auto.
  - (* the sleep is over *)
    apply Z.eqb_eq in E. subst d0. split; [|exact I].
    unfold before_timer. destruct (d =? 0) eqn:Z0; [|reflexivity].
    apply Z.eqb_eq in Z0. contradiction.
  - (* an exception is thrown into the sleep *)
    split; [exact I|]. right. exists e. simpl. auto.
  - (* the timer is started *)
    split; [reflexivity|exact I].
  - (* the call is settled *)
    split; [exact I|]. left. exists t, elapsed. split; [|reflexivity].
    right. apply in_or_app. right. now left.
  - (* the permit is released *)
    split; [exact I|].
    destruct Hr as [(tr & el & Hi & Ho)|(e & Hi & Ho)]; [left|right].
    + exists tr, el. split; [apply in_or_app; now left|exact Ho].
    + exists e. split; [apply in_or_app; now left|exact Ho].
Qed.

(** All along a run, every task has made exactly the moves that its code
    prescribes up to the point it has reached, and carries the delay
    scheduled for its index. *)
Lemma run_history c tester tr : forall s,
  __init__ c = Ret tester ->
  exec (initial tester) tr = Some s ->
  forall i t, nth_error (tasks s) i = Some t ->
              history_ok t (events_of i tr)
              /\ request_delay t = delay c (Z.of_nat i).
Proof.
  induction tr as [|[j ev] tr IH] using rev_ind; intros s I E i t N.
  - simpl in E. inversion E; subst s; clear E.
    apply ConfigFacts.init_returns in I. destruct I as [_ ->].
    simpl in N. apply RunFacts.nth_error_create_tasks in N. subst t.
    split; [|reflexivity]. unfold history_ok. cbn [pc result].
    rewrite RunFacts.single_request_unfold. split; [reflexivity|exact I].
  - apply RunFacts.exec_app in E. destruct E as (s1 & E1 & E2).
    pose proof (RunFacts.exec_inv _ _ _ _ (RunFacts.initial_inv _ _ I) E1)
      as (F & _ & _).
    cbn [exec] in E2.
    destruct (sys_step s1 (j, ev)) as [s2|] eqn:St; [|discriminate].
    inversion E2; subst s2; clear E2.
    unfold sys_step in St.
    destruct (nth_error (tasks s1) j) as [tj|] eqn:Nj; [|discriminate].
    destruct (task_step tj ev) as [[t1 dv]|] eqn:T; [|discriminate].
    destruct (match ev with EvAcquire => value s1 >? 0 | _ => true end);
      [|discriminate].
    inversion St; subst s; clear St. simpl in N.
    rewrite events_of_app.
    destruct (Nat.eq_dec j i) as [->|D].
    + rewrite RunFacts.nth_error_set_nth_eq in N
        by (eapply RunFacts.nth_error_lt; eauto).
      inversion N; subst t1; clear N.
      destruct (IH s1 I E1 i tj Nj) as [H Dl].
      rewrite events_of_same. split.
      * eapply task_step_history; eauto.
        rewrite Forall_forall in F. apply F. eapply nth_error_In; eauto.
      * rewrite <- Dl. eapply RunFacts.task_step_delay; eauto.
    + rewrite RunFacts.nth_error_set_nth_neq in N by exact D.
      rewrite events_of_other by exact D. rewrite app_nil_r.
      now apply (IH s1 I E1).
Qed.

Lemma http_step_pc t tr elapsed t' dv :
  task_step t (EvHttp tr elapsed) = Some (t', dv) ->
  exists rest, pc t = Http :: rest.
Proof.
  unfold task_step. destruct (pc t) as [|[] rest]; try discriminate. eauto.
Qed.

(** C4 (amended): every request first acquires its permit and only then,
    inside the [async with], waits for its scheduled delay before it
    starts its timer and issues its HTTP call.  In every run, the moves of
    request [i] before its HTTP call are exactly: the grant of the permit,
    then the end of the sleep of [delay i] seconds when that delay is not
    zero (no sleep at all when it is zero), then the start of the timer;
    the moves before the end of its sleep are exactly the grant of the
    permit; and the request holds its permit at both points. *)
Theorem delay_is_waited_inside_the_permit c tester :
  __init__ c = Ret tester ->
  (forall tr1 i transport elapsed tr2 s,
      exec (initial tester) (tr1 ++ (i, EvHttp transport elapsed) :: tr2)
      = Some s ->
      events_of i tr1
      = (EvAcquire
           :: (if delay c (Z.of_nat i) =? 0 then []
               else [EvSleep (delay c (Z.of_nat i))])
           ++ [EvTimer])%list
      /\ exists s1 t,
          exec (initial tester) tr1 = Some s1
          /\ nth_error (tasks s1) i = Some t
          /\ holds t = true)
  /\ (forall tr1 i d tr2 s,
        exec (initial tester) (tr1 ++ (i, EvSleep d) :: tr2) = Some s ->
        events_of i tr1 = [EvAcquire]
        /\ d = delay c (Z.of_nat i) /\ d <> 0
        /\ exists s1 t,
            exec (initial tester) tr1 = Some s1
            /\ nth_error (tasks s1) i = Some t
            /\ holds t = true
            /\ pc t = [Sleep d; StartTimer; Http; Release]).
Proof.
  intro I. split.
  - intros tr1 i transport elapsed tr2 s E.
    apply RunFacts.exec_app in E. destruct E as (s1 & E1 & E2).
    pose proof (RunFacts.exec_inv _ _ _ _ (RunFacts.initial_inv _ _ I) E1)
      as (F & _ & _).
    cbn [exec] in E2.
    destruct (sys_step s1 (i, EvHttp transport elapsed)) as [s2|] eqn:St;
      [|discriminate].
    unfold sys_step in St.
    destruct (nth_error (tasks s1) i) as [t|] eqn:N; [|discriminate].
    destruct (task_step t (EvHttp transport elapsed)) as [[t' dv]|] eqn:T;
      [|discriminate].
    destruct (http_step_pc _ _ _ _ _ T) as (rest & Pc).
    destruct (run_history c tester tr1 s1 I E1 i t N) as [[Hp _] D].
    rewrite Pc in Hp. rewrite D in Hp. split; [exact Hp|].
    exists s1, t. split; [exact E1|]. split; [exact N|].
    rewrite Forall_forall in F. pose proof (F t (nth_error_In _ _ N)) as S.
    destruct S; simpl in Pc; try discriminate Pc;
      rewrite ?RunFacts.single_request_unfold in Pc; try discriminate Pc.
    reflexivity.
  - intros tr1 i d tr2 s E.
    apply RunFacts.exec_app in E. destruct E as (s1 & E1 & E2).
    pose proof (RunFacts.exec_inv _ _ _ _ (RunFacts.initial_inv _ _ I) E1)
      as (F & _ & _).
    cbn [exec] in E2.
    destruct (sys_step s1 (i, EvSleep d)) as [s2|] eqn:St; [|discriminate].
    unfold sys_step in St.
    destruct (nth_error (tasks s1) i) as [t|] eqn:N; [|discriminate].
    destruct (task_step t (EvSleep d)) as [[t' dv]|] eqn:T; [|discriminate].
    rewrite Forall_forall in F. pose proof (F t (nth_error_In _ _ N)) as S.
    destruct (RunFacts.sleep_step_shape _ _ _ _ S T) as [-> Dn].
    destruct (run_history c tester tr1 s1 I E1 i _ N) as [[Hp _] D].
    simpl in Hp, D.
    split; [exact Hp|]. split; [exact D|]. split; [exact Dn|].
    exists s1. eexists. repeat split; eauto.
Qed.

Lemma delay_is_waited_inside_the_permit_witness :
  (forall tr1 i transport elapsed tr2 s,
      exec (initial Demo.tester)
           (tr1 ++ (i, EvHttp transport elapsed) :: tr2) = Some s ->
      events_of i tr1
      = (EvAcquire
           :: (if delay Demo.cfg (Z.of_nat i) =? 0 then []
               else [EvSleep (delay Demo.cfg (Z.of_nat i))])
           ++ [EvTimer])%list
      /\ exists s1 t,
          exec (initial Demo.tester) tr1 = Some s1
          /\ nth_error (tasks s1) i = Some t
          /\ holds t = true)
  /\ (forall tr1 i d tr2 s,
        exec (initial Demo.tester) (tr1 ++ (i, EvSleep d) :: tr2) = Some s ->
        events_of i tr1 = [EvAcquire]
        /\ d = delay Demo.cfg (Z.of_nat i) /\ d <> 0
        /\ exists s1 t,
            exec (initial Demo.tester) tr1 = Some s1
            /\ nth_error (tasks s1) i = Some t
            /\ holds t = true
            /\ pc t = [Sleep d; StartTimer; Http; Release]).
Proof.
  apply (delay_is_waited_inside_the_permit Demo.cfg Demo.tester).
  reflexivity.
Defined.







(** Where the entries of [self.results] come from. *)
Lemma gather_loop_origin update ts order : forall k acc rs exc r,
  gather_loop update k ts acc order = Some (rs, exc) ->
  In r rs ->
  In r acc \/ (exists e, r = error_result e)
  \/ exists t, In t ts /\ result t = Some (Ret r).
Proof.
  induction order as [|i order IH]; intros k acc rs exc r G Ir;
    cbn [gather_loop] in G.
  - inversion G; subst. now left.
  - destruct (nth_error ts i) as [t|] eqn:N; [|discriminate].
    apply nth_error_In in N.
    destruct (awaited t) as [o|] eqn:W; [|discriminate].
    assert (forall acc', collect_one acc o = (acc', None)
                         \/ (exists x, collect_one acc o = (acc', Some x)) ->
                         In r acc' ->
                         In r acc \/ (exists e, r = error_result e)
                         \/ exists t, In t ts /\ result t = Some (Ret r)) as One.
    { intros acc' Co Ia. unfold awaited in W.
      destruct (result t) as [[r0|e0]|] eqn:R; inversion W; subst o;
        cbn [collect_one] in Co.
      - assert (acc' = (acc ++ [r0])%list) as ->
            by (destruct Co as [Co|(x & Co)]; congruence).
        apply in_app_or in Ia. destruct Ia as [Ia|[<-|[]]]; [now left|].
        right. right. eauto.
      - destruct (isa_Exception e0).
        + assert (acc' = (acc ++ [error_result e0])%list) as ->
              by (destruct Co as [Co|(x & Co)]; congruence).
          apply in_app_or in Ia. destruct Ia as [Ia|[<-|[]]]; [now left|].
          right. left. eauto.
        + assert (acc' = acc) as ->
              by (destruct Co as [Co|(x & Co)]; congruence).
          now left. }
    destruct (collect_one acc o) as [acc' raised].
    destruct (update k) as [e|].
    + inversion G; subst. apply (One rs); [|exact Ir].
      destruct raised; eauto.
    + destruct raised as [e|].
      * inversion G; subst. apply (One rs); eauto.
      * destruct (IH _ _ _ _ _ G Ir) as [Ia|H]; [|now right].
        apply (One acc'); auto.
Qed.

Lemma recollect_origin ts : forall acc rs exc r,
  recollect acc ts = (rs, exc) ->
  In r rs ->
  In r acc \/ r = collection_error
  \/ exists t, In t ts /\ result t = Some (Ret r).
Proof.
  induction ts as [|t ts IH]; intros acc rs exc r R Ir; cbn [recollect] in R.
  - inversion R; subst. now left.
  - assert (forall acc', recollect acc' ts = (rs, exc) ->
                         (forall x, In x acc' ->
                                    In x acc \/ x = collection_error
                                    \/ result t = Some (Ret x)) ->
                         In r acc \/ r = collection_error
                         \/ exists t0, In t0 (t :: ts)
                                       /\ result t0 = Some (Ret r)) as Next.
    { intros acc' R' Sub.
      destruct (IH _ _ _ _ R' Ir) as [Ia|[->|(t0 & It & Rt)]].
      - destruct (Sub _ Ia) as [H|[H|H]]; [now left|now right; left|].
        right. right. exists t. split; [now left|exact H].
      - now right; left.
      - right. right. exists t0. split; [now right|exact Rt]. }
    destruct (finished t && negb (cancelled t)).
    + unfold awaited in R.
      destruct (result t) as [[r0|e0]|] eqn:Rt.
      * apply (Next _ R). intros x Ix.
        apply in_app_or in Ix. destruct Ix as [Ix|[<-|[]]]; auto.
      * destruct (isa_Exception e0).
        -- apply (Next _ R). intros x Ix.
           apply in_app_or in Ix. destruct Ix as [Ix|[<-|[]]]; auto.
        -- inversion R; subst. now left.
      * apply (Next _ R). auto.
    + apply (Next _ R). auto.
Qed.

Lemma run_test_gather_origin bar t s order rs exc r :
  run_test_gather bar t s order = Some (rs, exc) ->
  In r rs ->
  In r (results t) \/ r = collection_error \/ (exists e, r = error_result e)
  \/ exists t0, In t0 (tasks s) /\ result t0 = Some (Ret r).
Proof.
  intros G Ir.
  assert (forall rs0 exc0, gather_try bar t s order = Some (rs0, exc0) ->
                           In r rs0 ->
                           In r (results t) \/ r = collection_error
                           \/ (exists e, r = error_result e)
                           \/ exists t0, In t0 (tasks s)
                                         /\ result t0 = Some (Ret r)) as Try.
  { intros rs0 exc0 T I0. unfold gather_try in T.
    destruct (bar_create bar) as [e|]; [inversion T; subst; now left|].
    destruct (gather_loop (bar_update bar) 0 (tasks s) [] order)
      as [[rs1 [e|]]|] eqn:L; [| |discriminate].
    - inversion T; subst.
      destruct (gather_loop_origin _ _ _ _ _ _ _ _ L I0) as [[]|[H|H]]; auto.
    - assert (rs0 = rs1) as ->
          by (destruct (bar_close bar); inversion T; reflexivity).
      destruct (gather_loop_origin _ _ _ _ _ _ _ _ L I0) as [[]|[H|H]]; auto. }
  unfold run_test_gather in G.
  destruct (gather_try bar t s order) as [[rs0 [e|]]|] eqn:T; [| |discriminate].
  - destruct (isa_Exception e).
    + destruct (recollect [] (tasks s)) as [rs1 exc1] eqn:R.
      inversion G; subst.
      destruct (recollect_origin _ _ _ _ _ R Ir) as [[]|[H|H]]; auto.
    + inversion G; subst. eapply Try; eauto.
  - inversion G; subst. eapply Try; eauto.
Qed.

(** C3: every result that a run leaves in [self.results] (by its
    collection loop, or by the whole gathering of [run_test], second
    collection included, whatever the progress bar does) is classified as
    a success exactly when [200 <= status_code < 400] and it has no error
    tag, and as a failure exactly when [status_code >= 400], or it has an
    error tag, or [status_code = -1].  So the report of such a result set
    counts as successes the results that satisfy the first condition, and
    as failures those that satisfy the second. *)
Theorem gathered_results_are_classified c tester tr final order bar rs exc :
  __init__ c = Ret tester ->
  exec (initial tester) tr = Some final ->
  gather final order = Some (rs, exc)
  \/ run_test_gather bar tester final order = Some (rs, exc) ->
  (forall r,
      In r rs ->
      (is_success r = true
       <-> 200 <= status_code r < 400 /\ error r = None)
      /\ (is_failure r = true
          <-> status_code r >= 400 \/ error r <> None \/ status_code r = -1))
  /\ (forall d,
        rs <> [] ->
        exists rep,
          print_summary rs d = Ret (Some rep)
          /\ n_successes rep
             = Z.of_nat
                 (List.length
                    (filter (fun r => (200 <=? status_code r)
                                      && (status_code r <? 400)
                                      && match error r with
                                         | None => true
                                         | Some _ => false
                                         end)
                            rs))
          /\ n_failures rep
             = Z.of_nat
                 (List.length
                    (filter (fun r => (status_code r >=? 400)
                                      || match error r with
                                         | None => false
                                         | Some _ => true
                                         end
                                      || (status_code r =? -1))
                            rs))).
Proof.
  intros I E G.
  assert (forall tag, code_tag tag -> tag <> EmptyString) as Code.
  { intros tag [->|[(cls & ->)|[(cls & ->)|(cls & ->)]]]; discriminate. }
  assert (forall r s, In r rs -> error r = Some s -> s <> EmptyString) as Tag.
  { intros r s Ir Es. destruct G as [G|G].
    - destruct (CollectFacts.gathered_result_shape _ _ _ _ _ _ _ _ I E G Ir)
        as [[(status & n & el & ->)|(_ & _ & _ & tag & Et & Ct)] _].
      + discriminate Es.
      + rewrite Es in Et. inversion Et; subst tag. now apply Code.
    - pose proof (RunFacts.exec_inv _ _ _ _ (RunFacts.initial_inv _ _ I) E)
        as (F & _ & _).
      destruct (run_test_gather_origin _ _ _ _ _ _ _ G Ir)
        as [Ia|[->|[(e & ->)|(t & It & Rt)]]].
      + apply ConfigFacts.init_returns in I. destruct I as [_ ->].
        destruct Ia.
      + inversion Es. discriminate.
      + inversion Es. discriminate.
      + rewrite Forall_forall in F. specialize (F t It).
        destruct F; simpl in Rt; try discriminate;
          inversion Rt; subst;
          match goal with
          | H : task_outcome _ |- _ =>
              destruct H as [(tr0 & el & X)|(e & X)]; [|discriminate X]
          end;
          symmetry in X; apply CollectFacts.attempt_result in X;
          (destruct X as [(status & n & ->)|(_ & _ & _ & tag & Et & Ct)];
           [discriminate Es|]);
          rewrite Es in Et; inversion Et; subst tag; now apply Code. }
  split.
  - intros r Ir.
    split; [apply StatisticsFacts.is_success_spec|].
    rewrite StatisticsFacts.is_failure_spec.
    split.
    + intros [H|[(s & Es & _)|H]]; [now left| |now right; right].
      right. left. congruence.
    + intros [H|[H|H]]; [now left| |now right; right].
      right. left. destruct (error r) as [s|] eqn:Es; [|congruence].
      exists s. split; [reflexivity|]. now apply (Tag r).
  - intros d Ne. destruct rs as [|r0 rs']; [congruence|].
    exists (shown (r0 :: rs') d).
    split; [apply StatisticsFacts.print_summary_cons|].
    cbn [shown n_successes n_failures]. split.
    + reflexivity.
    + unfold len, failures. do 2 f_equal. apply filter_ext_in.
      intros r Ir. unfold is_failure. do 2 f_equal.
      destruct (error r) as [[|a s]|] eqn:Es; try reflexivity.
      exfalso. now apply (Tag r EmptyString Ir).
Qed.

Lemma gathered_results_are_classified_witness :
  (forall r,
      In r [mkTestResult (-1) 30 0 (Some "TimeoutError");
     mkTestResult (-1) (1 # 100) 0
       (Some "ClientError: ClientConnectorError");
     collection_error] ->
      (is_success r = true
       <-> 200 <= status_code r < 400 /\ error r = None)
      /\ (is_failure r = true
          <-> status_code r >= 400 \/ error r <> None \/ status_code r = -1))
  /\ (forall d,
        [mkTestResult (-1) 30 0 (Some "TimeoutError");
     mkTestResult (-1) (1 # 100) 0
       (Some "ClientError: ClientConnectorError");
     collection_error] <> [] ->
        exists rep,
          print_summary [mkTestResult (-1) 30 0 (Some "TimeoutError");
     mkTestResult (-1) (1 # 100) 0
       (Some "ClientError: ClientConnectorError");
     collection_error] d = Ret (Some rep)
          /\ n_successes rep
             = Z.of_nat
                 (List.length
                    (filter (fun r => (200 <=? status_code r)
                                      && (status_code r <? 400)
                                      && match error r with
                                         | None => true
                                         | Some _ => false
                                         end)
                            [mkTestResult (-1) 30 0 (Some "TimeoutError");
     mkTestResult (-1) (1 # 100) 0
       (Some "ClientError: ClientConnectorError");
     collection_error]))
          /\ n_failures rep
             = Z.of_nat
                 (List.length
                    (filter (fun r => (status_code r >=? 400)
                                      || match error r with
                                         | None => false
                                         | Some _ => true
                                         end
                                      || (status_code r =? -1))
                            [mkTestResult (-1) 30 0 (Some "TimeoutError");
     mkTestResult (-1) (1 # 100) 0
       (Some "ClientError: ClientConnectorError");
     collection_error]))).
Proof.
  apply (gathered_results_are_classified
           Demo.cfg Demo.tester Demo.failing_schedule Demo.failed
           [0; 2; 1]%nat
           (mkBar None (fun _ => None) (Some Demo.RuntimeError))
           [mkTestResult (-1) 30 0 (Some "TimeoutError");
            mkTestResult (-1) (1 # 100) 0
              (Some "ClientError: ClientConnectorError");
            collection_error]
           None).
  - reflexivity.
  - reflexivity.
  - right. reflexivity.
Defined.

End HistoryFacts.
